(** * product-media-count: the extraction and resume logic of [app.py]

    A shallow embedding of the script.  Values decoded from JSON are
    modelled by [value]; Python exceptions by the [result] monad; the two
    CSV files by the rows that [csv.reader] yields from them; the network
    by the outcome of each HTTP call. *)

From Stdlib Require Import Floats.SpecFloat.
From stdpp Require Import gmap strings list pretty.

Open Scope string_scope.
#[local] Set Warnings "-register-all".

(** ** Python values *)

(** What [Response.json()] can return.  A dict is the list of its items
    in insertion order (keys pairwise distinct, as [json.loads] builds
    them); a lookup takes the first binding of the key. *)
Inductive value : Type :=
| PNone
| PBool (b : bool)
| PInt (n : Z)
| PFloat (x : spec_float)
| PStr (s : string)
| PList (l : list value)
| PDict (d : list (string * value)).

Inductive exn : Type :=
| AttributeError
| TypeError
| ValueError
| KeyError
| FileNotFoundError
| SystemExit (code : Z).

Inductive result (A : Type) : Type :=
| Ok (a : A)
| Raise (e : exn).
Arguments Ok {A} a.
Arguments Raise {A} e.

Definition bind {A B} (m : result A) (k : A -> result B) : result B :=
  match m with
  | Ok a => k a
  | Raise e => Raise e
  end.

Notation "'let!' x ':=' m 'in' k" := (bind m (fun x => k))
  (at level 10, x name, m at level 100, k at level 200).
Notation "'let!' ' pat ':=' m 'in' k" :=
  (bind m (fun x => match x with pat => k end))
  (at level 10, pat pattern, m at level 100, k at level 200).

Module Py.

(** Truth value testing, as in [if x:], [not x], [x or y]. *)
Definition truthy (v : value) : bool :=
  match v with
  | PNone => false
  | PBool b => b
  | PInt n => negb (n =? 0)%Z
  | PFloat (S754_zero _) => false
  | PFloat _ => true
  | PStr s => negb (String.eqb s "")
  | PList l => match l with [] => false | _ => true end
  | PDict d => match d with [] => false | _ => true end
  end.

(** [a or b], where evaluating [b] cannot raise. *)
Definition or_ (a b : value) : value := if truthy a then a else b.

Definition is_none (v : value) : bool :=
  match v with PNone => true | _ => false end.

Fixpoint lookup_item (k : string) (d : list (string * value)) : option value :=
  match d with
  | [] => None
  | (k', v) :: rest => if String.eqb k' k then Some v else lookup_item k rest
  end.

(** [v.get(k)]: only a dict has the method; a missing key gives [None]. *)
Definition get (k : string) (v : value) : result value :=
  match v with
  | PDict d => Ok (default PNone (lookup_item k d))
  | _ => Raise AttributeError
  end.

(** [v == s] for a [str] [s]. *)
Definition eq_str (v : value) (s : string) : bool :=
  match v with
  | PStr s' => String.eqb s' s
  | _ => false
  end.

Fixpoint string_chars (s : string) : list string :=
  match s with
  | EmptyString => []
  | String c rest => String c EmptyString :: string_chars rest
  end.

(** The elements a [for] loop (or a generator expression) visits. *)
Definition iter (v : value) : result (list value) :=
  match v with
  | PList l => Ok l
  | PDict d => Ok (map (fun kv => PStr (fst kv)) d)
  | PStr s => Ok (map PStr (string_chars s))
  | _ => Raise TypeError
  end.

(** [sep.join(l)]: every element must be a [str]. *)
Fixpoint join (sep : string) (l : list value) : result string :=
  match l with
  | [] => Ok ""
  | PStr s :: rest =>
      match rest with
      | [] => Ok s
      | _ => let! tl := join sep rest in Ok (s +:+ sep +:+ tl)
      end
  | _ :: _ => Raise TypeError
  end.

End Py.

(** ** The extractor *)

Definition empty_dict : value := PDict [].
Definition empty_list : value := PList [].

(** [any((ov or {}).get("source_id") == product_source_id for ov in overrides)]:
    the generator stops at the first true element. *)
Fixpoint override_any (overrides : list value) (product_source_id : string)
  : result bool :=
  match overrides with
  | [] => Ok false
  | ov :: rest =>
      let! src := Py.get "source_id" (Py.or_ ov empty_dict) in
      if Py.eq_str src product_source_id then Ok true
      else override_any rest product_source_id
  end.

(** The two assignments of a matching association (source lines 144 to 148). *)
Definition take_product_info (tag product : value) (dash_id product_url : value)
  : result (value * value) :=
  let! dash_id' :=
    (if Py.is_none dash_id then
       let! pid := Py.get "id" product in
       if Py.truthy pid then Ok pid else Py.get "product_id" tag
     else Ok dash_id) in
  let! product_url' :=
    (if Py.is_none product_url then Py.get "url" product else Ok product_url) in
  Ok (dash_id', product_url').

(** One association: its nested product, and whether it matches. *)
Definition tag_product (tag : value) : result value :=
  let! p := Py.get "product" tag in
  Ok (Py.or_ p empty_dict).

Definition tag_matches (tag product : value) (product_source_id : string)
  : result bool :=
  let! o := Py.get "product_overrides" product in
  let! overrides := Py.iter (Py.or_ o empty_list) in
  let! override_match := override_any overrides product_source_id in
  let! tsrc := Py.get "source_id" tag in
  if Py.eq_str tsrc product_source_id then Ok true
  else
    let! psrc := Py.get "source_id" product in
    if Py.eq_str psrc product_source_id then Ok true
    else Ok override_match.

(** The inner loop [for tag in media.get("products") or []], with its [break]. *)
Fixpoint scan_products (tags : list value) (product_source_id : string)
    (dash_id product_url : value) : result (value * value) :=
  match tags with
  | [] => Ok (dash_id, product_url)
  | tag :: rest =>
      let! product := tag_product tag in
      let! hit := tag_matches tag product product_source_id in
      if hit then take_product_info tag product dash_id product_url
      else scan_products rest product_source_id dash_id product_url
  end.

(** The image URL of one record, appended when it is truthy. *)
Definition collect_image (media : value) (media_image_urls : list value)
  : result (list value) :=
  let! i := Py.get "image_sizes" media in
  let! o := Py.get "original" (Py.or_ i empty_dict) in
  let orig := Py.or_ o empty_dict in
  let! u := Py.get "url" orig in
  if Py.truthy u then Ok (media_image_urls ++ [u])%list else Ok media_image_urls.

Definition search_products (media : value) (product_source_id : string)
    (dash_id product_url : value) : result (value * value) :=
  let! ps := Py.get "products" media in
  let! tags := Py.iter (Py.or_ ps empty_list) in
  scan_products tags product_source_id dash_id product_url.

(** The outer loop, threading [dash_id], [product_url], [media_image_urls]. *)
Fixpoint extract_loop (media_items : list value) (product_source_id : string)
    (dash_id product_url : value) (media_image_urls : list value)
  : result (value * value * list value) :=
  match media_items with
  | [] => Ok (dash_id, product_url, media_image_urls)
  | media :: rest =>
      let! urls := collect_image media media_image_urls in
      if negb (Py.is_none dash_id) && negb (Py.is_none product_url) then
        extract_loop rest product_source_id dash_id product_url urls
      else
        let! '(d, u) :=
          search_products media product_source_id dash_id product_url in
        extract_loop rest product_source_id d u urls
  end.

Definition extract_product_info (media_items : list value)
    (product_source_id : string) : result (value * value * nat * list value) :=
  let! '(dash_id, product_url, media_image_urls) :=
    extract_loop media_items product_source_id PNone PNone [] in
  let media_count := length media_items in
  Ok (dash_id, product_url, media_count, media_image_urls).

(** The variant of the extractor that searches every record for a match:
    the source's loop with lines 126 to 128 (the early [continue]) removed. *)
Fixpoint extract_loop_full (media_items : list value) (product_source_id : string)
    (dash_id product_url : value) (media_image_urls : list value)
  : result (value * value * list value) :=
  match media_items with
  | [] => Ok (dash_id, product_url, media_image_urls)
  | media :: rest =>
      let! urls := collect_image media media_image_urls in
      let! '(d, u) :=
        search_products media product_source_id dash_id product_url in
      extract_loop_full rest product_source_id d u urls
  end.

Definition extract_product_info_full (media_items : list value)
    (product_source_id : string) : result (value * value * nat * list value) :=
  let! '(dash_id, product_url, media_image_urls) :=
    extract_loop_full media_items product_source_id PNone PNone [] in
  let media_count := length media_items in
  Ok (dash_id, product_url, media_count, media_image_urls).

(** ** The data model of the specification

    Field access that reads every missing nested structure as absent;
    the matching rule and the shape of a media record are stated with it. *)

Definition field (k : string) (v : value) : value :=
  match v with
  | PDict d => default PNone (Py.lookup_item k d)
  | _ => PNone
  end.

Definition entries (v : value) : list value :=
  match v with
  | PList l => l
  | _ => []
  end.

Definition nested_product (tag : value) : value := field "product" tag.

(** The three-way disjunction of the matching rule. *)
Definition assoc_matches (target : string) (tag : value) : Prop :=
  field "source_id" tag = PStr target
  \/ field "source_id" (nested_product tag) = PStr target
  \/ exists ov, ov ∈ entries (field "product_overrides" (nested_product tag))
               /\ field "source_id" ov = PStr target.

Definition record_matches (target : string) (media : value) : Prop :=
  exists tag, tag ∈ entries (field "products" media) /\ assoc_matches target tag.

(** The internal id a matching association provides. *)
Definition assoc_id (tag : value) : value :=
  Py.or_ (field "id" (nested_product tag)) (field "product_id" tag).

Definition assoc_url (tag : value) : value := field "url" (nested_product tag).

Definition image_url (media : value) : value :=
  field "url" (field "original" (field "image_sizes" media)).

Definition image_urls (media_items : list value) : list value :=
  filter (fun u => Py.truthy u = true) (map image_url media_items).

(** Shape of a media record: a dict whose nested structures, where present,
    are dicts and lists of dicts. *)
Definition is_dict (v : value) : bool :=
  match v with PDict _ => true | _ => false end.

Definition absent_or (shape : value -> bool) (v : value) : bool :=
  negb (Py.truthy v) || shape v.

Definition list_of (shape : value -> bool) (v : value) : bool :=
  match v with
  | PList l => forallb shape l
  | _ => false
  end.

Definition wf_override (ov : value) : bool := absent_or is_dict ov.

Definition wf_product (p : value) : bool :=
  is_dict p && absent_or (list_of wf_override) (field "product_overrides" p).

Definition wf_tag (tag : value) : bool :=
  is_dict tag && absent_or wf_product (field "product" tag).

Definition wf_image_sizes (i : value) : bool :=
  is_dict i && absent_or is_dict (field "original" i).

Definition wf_media (media : value) : bool :=
  is_dict media
  && absent_or wf_image_sizes (field "image_sizes" media)
  && absent_or (list_of wf_tag) (field "products" media).

(** ** Configuration and the network *)

(** The settings at the top of the script that the modelled code reads
    (the brand id and the bearer token are filled in per deployment). *)
Record config : Type := {
  BRAND_ID : Z;
  BEARER_TOKEN : string;
}.

Definition LIBRARY_BASE_URL : string := "https://app.dashhudson.com".

(** What one [requests.get] call comes back with.  [body] is [None] when
    [Response.json()] raises. *)
Inductive http_outcome : Type :=
| RequestError
| Response (status_code : Z) (body : option value).

(** [v == n] for an [int] [n]. *)
Definition float_eq_int (x : spec_float) (n : Z) : bool :=
  match x with
  | S754_zero _ => (n =? 0)%Z
  | S754_finite s m e =>
      let z := if s then Z.neg m else Z.pos m in
      if (0 <=? e)%Z then (z * 2 ^ e =? n)%Z else (z =? n * 2 ^ (- e))%Z
  | _ => false
  end.

Definition eq_int (v : value) (n : Z) : bool :=
  match v with
  | PInt m => (m =? n)%Z
  | PBool b => ((if b then 1 else 0) =? n)%Z
  | PFloat x => float_eq_int x n
  | _ => false
  end.

(** The loop [for brand_name, brand_obj in brands.items()]. *)
Fixpoint find_brand (items : list (string * value)) (brand_id : Z)
  : result string :=
  match items with
  | [] => Raise (SystemExit 1)
  | (brand_name, brand_obj) :: rest =>
      let! id := Py.get "id" brand_obj in
      if eq_int id brand_id then Ok brand_name else find_brand rest brand_id
  end.

Definition get_brand_name (self : http_outcome) (brand_id : Z) : result string :=
  match self with
  | RequestError => Raise (SystemExit 1)
  | Response status_code body =>
      if negb (status_code =? 200)%Z then Raise (SystemExit 1)
      else
        match body with
        | None => Raise (SystemExit 1)
        | Some data =>
            let! b := Py.get "brands" data in
            match Py.or_ b empty_dict with
            | PDict brands => find_brand brands brand_id
            | _ => Raise AttributeError
            end
        end
  end.

Definition fetch_media_for_product_source_id
    (requests_get : string -> http_outcome) (product_source_id : string)
  : list value :=
  match requests_get product_source_id with
  | RequestError => []
  | Response status_code body =>
      if negb (status_code =? 200)%Z then []
      else
        match body with
        | None => []
        | Some data =>
            match data with
            | PList l => l
            | _ => []
            end
        end
  end.

(** ** The two CSV files

    A file is the list of rows [csv.reader] yields from it (a blank line is
    the empty row); [None] is a path that does not exist.  A [string] is a
    Python [str] of characters below code point 256, one per [ascii].

    The rows are those of a file the reader does read: UTF-8 bytes, no cell
    over the reader's field size limit of 131072 characters.  The script
    can itself write a longer cell (the joined image URLs); whatever below
    reads a written file back takes the success of that read as a
    hypothesis.  Errors of the operating system on the two paths
    (permissions, a full disk) are not modelled. *)

Abbreviation csv_row := (list string) (only parsing).
Abbreviation csv_file := (list (list string)) (only parsing).

Module DictReader.

Definition fieldnames (f : csv_file) : option (list string) := head f.

(** [dict(zip(fieldnames, row))], then [None] under every field name the
    row is too short for.  (Surplus cells go under the key [None], which
    no lookup of the script reads.) *)
Definition row_dict (names : list string) (row : csv_row)
  : gmap string (option string) :=
  let d := foldl (fun d kv => <[kv.1 := Some kv.2]> d) ∅ (zip names row) in
  foldl (fun d k => <[k := None]> d) d (drop (length row) names).

(** Iteration: the header is consumed, blank rows are skipped. *)
Definition rows (f : csv_file) : list (gmap string (option string)) :=
  match f with
  | [] => []
  | names :: rest => map (row_dict names) (filter (fun r => r <> []) rest)
  end.

End DictReader.

(** [str.isspace] on the characters below 256. *)
Definition is_space (c : Ascii.ascii) : bool :=
  let n := Ascii.N_of_ascii c in
  ((9 <=? n) && (n <=? 13) || (28 <=? n) && (n <=? 32)
   || (n =? 133) || (n =? 160))%N.

Fixpoint lstrip (s : string) : string :=
  match s with
  | EmptyString => EmptyString
  | String c rest => if is_space c then lstrip rest else s
  end.

Fixpoint rstrip (s : string) : string :=
  match s with
  | EmptyString => EmptyString
  | String c rest =>
      match rstrip rest with
      | EmptyString => if is_space c then EmptyString else String c EmptyString
      | rest' => String c rest'
      end
  end.

Definition strip (s : string) : string := rstrip (lstrip s).

(** Whitespace at the ends of a string, to state what [strip] leaves. *)
Fixpoint all_space (s : string) : bool :=
  match s with
  | EmptyString => true
  | String c rest => is_space c && all_space rest
  end.

Definition starts_with_space (s : string) : bool :=
  match s with
  | EmptyString => false
  | String c _ => is_space c
  end.

Fixpoint ends_with_space (s : string) : bool :=
  match s with
  | EmptyString => false
  | String c EmptyString => is_space c
  | String _ rest => ends_with_space rest
  end.

(** [(row.get(k) or "")] on a [DictReader] row. *)
Definition get_or_empty (k : string) (row : gmap string (option string)) : string :=
  match row !! k with
  | Some (Some s) => s
  | _ => ""
  end.

Definition read_product_source_ids (f : option csv_file) : result (list string) :=
  match f with
  | None => Raise FileNotFoundError
  | Some file =>
      if bool_decide ("product_source_id" ∈ default [] (DictReader.fieldnames file))
      then
        Ok (foldl (fun values row =>
                     let value := strip (get_or_empty "product_source_id" row) in
                     if negb (String.eqb value "") then (values ++ [value])%list
                     else values)
                  [] (DictReader.rows file))
      else Raise ValueError
  end.

(** [row[k]] on a [DictReader] row. *)
Definition getitem (k : string) (row : gmap string (option string))
  : result (option string) :=
  match row !! k with
  | Some v => Ok v
  | None => Raise KeyError
  end.

Fixpoint add_processed (rows : list (gmap string (option string)))
    (processed : gset (option string)) : result (gset (option string)) :=
  match rows with
  | [] => Ok processed
  | row :: rest =>
      let! v := getitem "product_id" row in
      add_processed rest ({[ v ]} ∪ processed)
  end.

Definition load_already_processed_rows (f : option csv_file)
  : result (gset (option string)) :=
  match f with
  | None => Ok ∅
  | Some file =>
      if bool_decide ("product_id" ∈ default [] (DictReader.fieldnames file))
      then add_processed (DictReader.rows file) ∅
      else Ok ∅
  end.

Definition fieldnames : list string :=
  ["product_id"; "dash_id"; "dash_library_link"; "product_url";
   "media_count"; "media_image_urls"].

Section Script.

(** [str(v)] for a float, a list or a dict: the interpreter's rendering,
    which the script only passes through. *)
Variable str_other : value -> string.

Definition py_str (v : value) : string :=
  match v with
  | PNone => "None"
  | PBool true => "True"
  | PBool false => "False"
  | PInt n => pretty n
  | PStr s => s
  | _ => str_other v
  end.

Definition build_dash_library_link (brand_name dash_id : value) : string :=
  if negb (Py.truthy brand_name) || negb (Py.truthy dash_id) then ""
  else
    LIBRARY_BASE_URL +:+ "/" +:+ py_str brand_name +:+ "/library/products"
    +:+ "?d=product%7CproductId%3A" +:+ py_str dash_id.

(** The text [csv.writer] puts in a cell. *)
Definition cell (v : value) : string :=
  match v with
  | PNone => ""
  | _ => py_str v
  end.

(** [DictWriter.writerow]: the row's values in the order of [fieldnames]. *)
Definition writerow (row : gmap string value) : csv_row :=
  map (fun k => cell (default (PStr "") (row !! k))) fieldnames.

(** [append_row] on a path that does not exist, or on a file whose bytes
    end where a record ends (the empty file, a file whose last line has its
    line terminator): the header when the path did not exist, then the row,
    are the rows the text written adds to the file.  The text is written
    after the last byte, in mode [a]; for a file that stops inside a record
    see [append_row_bytes] below. *)
Definition append_row (f : option csv_file) (row : gmap string value)
    (write_header_if_needed : bool) : option csv_file :=
  let file_exists := match f with Some _ => true | None => false end in
  let write_header := negb file_exists && write_header_if_needed in
  Some (default [] f
        ++ (if write_header then [fieldnames] else [])
        ++ [writerow row])%list.

(** ** The driver *)

(** What a run finds outside the script.  The rows of the output file do
    not tell how its bytes end, and [append_row] writes bytes after them:
    [output_glued] is [None] when the file ends where a record ends, as
    every file the script wrote itself does.  Otherwise the file stops
    inside a record (a last line without its line terminator, a quoted
    field left open), the text written next continues that record, and
    [output_glued] gives the rows [csv.reader] yields from the file once the
    rows given, in order, have been appended to it.  Nothing is supposed
    about that function: what is proved of the content of such a file holds
    however the text written is read back. *)
Record env : Type := {
  cfg : config;
  self_response : http_outcome;
  media_response : nat -> string -> http_outcome;
  input_csv : option csv_file;
  output_glued : option (list csv_row -> csv_file);
}.

(** What a run does, in order: the two messages of the loop, the calls of
    [append_row] with the cells of the row, and the pacing sleeps. *)
Inductive event : Type :=
| Skipping (idx : nat) (product_source_id : string)
| Fetching (idx : nat) (product_source_id : string)
| Appending (row : csv_row)
| Sleep.

Record world : Type := {
  output_csv : option csv_file;
  events : list event;
}.

Definition log (ev : event) (w : world) : world :=
  {| output_csv := output_csv w; events := (events w ++ [ev])%list |}.

(** The rows handed to [append_row] so far, in order. *)
Definition appended (evs : list event) : list csv_row :=
  omap (fun ev => match ev with Appending row => Some row | _ => None end) evs.

(** [append_row] on the output file as its bytes are: [append_row] above
    when the file ends where a record ends, and what the environment says
    when it stops inside one ([written]: the rows of this run so far, the
    new one included). *)
Definition append_row_bytes (glue : option (list csv_row -> csv_file))
    (written : list csv_row) (f : option csv_file) (row : gmap string value)
  : option csv_file :=
  match glue with
  | None => append_row f row true
  | Some g => Some (g written)
  end.

(** The evaluation of one row, from the fetched records (lines 263 to 276). *)
Definition make_row (brand_name : string) (media_items : list value)
    (product_source_id : string) : result (gmap string value) :=
  let! '(dash_id, product_url, media_count, media_image_urls) :=
    extract_product_info media_items product_source_id in
  let dash_library_link := build_dash_library_link (PStr brand_name) dash_id in
  let! joined := Py.join "; " media_image_urls in
  Ok (<["media_image_urls" := PStr joined]>
      (<["media_count" := PInt (Z.of_nat media_count)]>
      (<["product_url" := Py.or_ product_url (PStr "")]>
      (<["dash_library_link" := PStr dash_library_link]>
      (<["dash_id" := if Py.is_none dash_id then PStr "" else dash_id]>
      (<["product_id" := PStr product_source_id]> ∅)))))).

(** The loop [for idx, product_source_id in enumerate(product_source_ids, start=1)]. *)
Fixpoint main_loop (e : env) (brand_name : string)
    (processed : gset (option string))
    (glue : option (list csv_row -> csv_file)) (idx : nat)
    (product_source_ids : list string) (w : world) : world * result unit :=
  match product_source_ids with
  | [] => (w, Ok tt)
  | product_source_id :: rest =>
      if bool_decide (Some product_source_id ∈ processed) then
        main_loop e brand_name processed glue (S idx) rest
          (log (Skipping idx product_source_id) w)
      else
        let w := log (Fetching idx product_source_id) w in
        let media_items :=
          fetch_media_for_product_source_id (media_response e idx)
            product_source_id in
        match make_row brand_name media_items product_source_id with
        | Raise x => (w, Raise x)
        | Ok row =>
            let w := log (Appending (writerow row)) w in
            let w := {| output_csv :=
                          append_row_bytes glue (appended (events w))
                            (output_csv w) row;
                        events := events w |} in
            main_loop e brand_name processed glue (S idx) rest (log Sleep w)
        end
  end.

Definition main (e : env) (out : option csv_file) : world * result unit :=
  let w := {| output_csv := out; events := [] |} in
  let token := BEARER_TOKEN (cfg e) in
  if String.eqb token "" || String.eqb token "YOUR_BEARER_TOKEN_HERE" then
    (w, Raise (SystemExit 1))
  else
    match get_brand_name (self_response e) (BRAND_ID (cfg e)) with
    | Raise x => (w, Raise x)
    | Ok brand_name =>
        match read_product_source_ids (input_csv e) with
        | Raise x => (w, Raise x)
        | Ok product_source_ids =>
            match load_already_processed_rows out with
            | Raise x => (w, Raise x)
            | Ok processed =>
                let glue :=
                  match out with
                  | Some _ => output_glued e
                  | None => None
                  end in
                main_loop e brand_name processed glue 1 product_source_ids w
            end
        end
    end.

End Script.

(** The identifier a written row is keyed by: its first cell. *)
Definition row_id (row : csv_row) : string := default "" (head row).

(** Number of data rows of the output file written for an identifier. *)
Definition rows_for (id : string) (f : option csv_file) : nat :=
  length (filter (fun row => row_id row = id) (tail (default [] f))).

(** The output file after rows have been appended one by one. *)
Definition written_file (out : option csv_file) (new : list csv_row)
  : option csv_file :=
  match new with
  | [] => out
  | _ => Some (default [fieldnames] out ++ new)%list
  end.

(** The trace of a run that skips every identifier. *)
Fixpoint skip_events (idx : nat) (product_source_ids : list string)
  : list event :=
  match product_source_ids with
  | [] => []
  | id :: rest => Skipping idx id :: skip_events (S idx) rest
  end.

(** The internal id of a matching association under the reading "fall back
    to product_id if and only if the product's id is absent". *)
Definition assoc_id_if_absent (tag : value) : value :=
  if Py.is_none (field "id" (nested_product tag))
  then field "product_id" tag
  else field "id" (nested_product tag).

(** ** Sample data *)

Module Sample.

(** An association with its own source id and a nested product. *)
Definition tag (source_id : string) (product : list (string * value)) : value :=
  PDict [("source_id", PStr source_id); ("product_id", PInt 7);
         ("product", PDict product)].

(** A media record with an original image and product associations. *)
Definition media (image : string) (tags : list value) : value :=
  PDict [("image_sizes", PDict [("original", PDict [("url", PStr image)])]);
         ("products", PList tags)].

Definition product42 : list (string * value) :=
  [("id", PInt 42); ("source_id", PStr "sku-42");
   ("url", PStr "https://x/p/42");
   ("original_url", PStr "https://shop/p/42")].

(** Three records; only the third carries a matching association. *)
Definition three_records : list value :=
  [media "https://img/1" [];
   media "https://img/2" [tag "other" [("id", PInt 9); ("url", PStr "https://x/p/9")]];
   media "https://img/3" [tag "other" []; tag "sku-42" product42]].

(** Two records with an image each and no association. *)
Definition two_images : list value :=
  [media "https://img/1" []; media "https://img/2" []].

(** A record matched through an override of the nested product. *)
Definition override_media : value :=
  media "https://img/o"
    [tag "other" [];
     tag "alias"
       [("id", PInt 5); ("url", PStr "https://x/p/5");
        ("product_overrides", PList [PNone; PDict [("source_id", PStr "sku-5")]])]].

(** A product whose id is present but zero. *)
Definition zero_id_tag : value :=
  tag "sku-0" [("id", PInt 0); ("url", PStr "https://x/p/0")].

Definition no_str : value -> string := fun _ => "".

Definition settings : config :=
  {| BRAND_ID := 2005; BEARER_TOKEN := "token" |}.

Definition self_ok : http_outcome :=
  Response 200
    (Some (PDict [("brands", PDict [("acme", PDict [("id", PInt 2005)])])])).

(** An environment in which every media lookup fails. *)
Definition offline (input : list (list string)) : env :=
  {| cfg := settings;
     self_response := self_ok;
     media_response := fun _ _ => RequestError;
     input_csv := Some input;
     output_glued := None |}.

Definition written (id : string) : list string :=
  [id; ""; ""; ""; "0"; ""].

End Sample.

(** ** Statement helpers *)

(** The matching rule as a test, and the first matching association of a
    record. *)
Definition assoc_matchesb (target : string) (tag : value) : bool :=
  Py.eq_str (field "source_id" tag) target
  || Py.eq_str (field "source_id" (nested_product tag)) target
  || existsb (fun ov => Py.eq_str (field "source_id" ov) target)
       (entries (field "product_overrides" (nested_product tag))).

Definition first_match (target : string) (media : value) : option value :=
  List.find (assoc_matchesb target) (entries (field "products" media)).

(** The first value of a list that is not [None]. *)
Fixpoint first_set (vs : list value) : value :=
  match vs with
  | [] => PNone
  | v :: rest => if Py.is_none v then first_set rest else v
  end.

Definition is_str (v : value) : bool :=
  match v with PStr _ => true | _ => false end.

Definition is_sleep (ev : event) : bool :=
  match ev with Sleep => true | _ => false end.

Definition is_fetching (ev : event) : bool :=
  match ev with Fetching _ _ => true | _ => false end.

(** Every call of [append_row] is followed at once by one sleep, and there
    is no other sleep. *)
Fixpoint paced (evs : list event) : bool :=
  match evs with
  | [] => true
  | Appending _ :: rest =>
      match rest with
      | Sleep :: rest' => paced rest'
      | _ => false
      end
  | Sleep :: _ => false
  | _ :: rest => paced rest
  end.

(** The output file is absent, or its bytes end where a record ends. *)
Definition ends_complete (e : env) (out : option (list (list string))) : Prop :=
  out = None \/ output_glued e = None.

(** The row written for an identifier whose lookup gave no records. *)
Definition empty_row (product_source_id : string) : list string :=
  [product_source_id; ""; ""; ""; "0"; ""].

(** The output file is absent or begins with the script's header. *)
Definition script_file (out : option (list (list string))) : Prop :=
  out = None \/ exists rows, out = Some (fieldnames :: rows).

(** The exceptions a value of the wrong type gives rise to. *)
Definition shape_error (x : exn) : Prop :=
  x = AttributeError \/ x = TypeError.

(** What an event of the loop started at index [idx] over
    [product_source_ids] says about the identifier it names. *)
Definition event_ok (processed : gset (option string)) (idx : nat)
    (product_source_ids : list string) (ev : event) : Prop :=
  match ev with
  | Skipping i id =>
      (Some id ∈ processed) /\ idx <= i
      /\ product_source_ids !! (i - idx) = Some id
  | Fetching i id =>
      (Some id ∉ processed) /\ idx <= i
      /\ product_source_ids !! (i - idx) = Some id
  | Appending _ => True
  | Sleep => True
  end.

(** The image part of a media record is well shaped. *)
Definition wf_image (media : value) : bool :=
  is_dict media && absent_or wf_image_sizes (field "image_sizes" media).

(** ** Further sample data *)

Module Fixture.

(** Two matching records: the first offers an id and no URL, the second
    offers both. *)
Definition split_records : list value :=
  [Sample.media "https://img/1" [Sample.tag "sku-1" [("id", PInt 1)]];
   Sample.media "https://img/2"
     [Sample.tag "sku-1" [("id", PInt 2); ("url", PStr "https://x/p/2")]]].

(** Two records that both match: the search of the second is the one the
    early exit leaves out. *)
Definition two_matches : list value :=
  [Sample.media "https://img/1" [Sample.tag "sku-42" Sample.product42];
   Sample.media "https://img/2"
     [Sample.tag "sku-42" [("id", PInt 99); ("url", PStr "https://x/p/99")]]].

(** A record whose image part is fine and whose products cannot be
    iterated. *)
Definition odd_products : value :=
  PDict [("image_sizes", PDict [("original", PDict [("url", PStr "https://img/9")])]);
         ("products", PInt 5)].

(** An environment in which every media lookup returns the three sample
    records. *)
Definition online (input : list (list string)) : env :=
  {| cfg := Sample.settings;
     self_response := Sample.self_ok;
     media_response := fun _ _ => Response 200 (Some (PList Sample.three_records));
     input_csv := Some input;
     output_glued := None |}.

(** An environment whose token was left empty. *)
Definition no_token : env :=
  {| cfg := {| BRAND_ID := 2005; BEARER_TOKEN := "" |};
     self_response := Sample.self_ok;
     media_response := fun _ _ => RequestError;
     input_csv := Some [["product_source_id"]; ["sku-1"]];
     output_glued := None |}.

Definition two_ids : list (list string) :=
  [["product_source_id"]; ["sku-1"]; ["sku-2"]].

(** An output file whose last line, [sku-1], has no line terminator. *)
Definition unterminated : list (list string) :=
  [fieldnames; Sample.written "sku-12"; ["sku-1"]].

(** The same file after rows have been appended: the text of the first
    one continues the last line (stated for a first cell that is written
    without quotes). *)
Definition unterminated_glued (written : list (list string))
  : list (list string) :=
  match written with
  | [] => unterminated
  | [] :: rest => (unterminated ++ rest)%list
  | (c :: cells) :: rest =>
      ([fieldnames; Sample.written "sku-12"; ("sku-1" +:+ c) :: cells]
       ++ rest)%list
  end.

(** A run over the identifiers [sku-12] and [2] that finds this file. *)
Definition glued : env :=
  {| cfg := Sample.settings;
     self_response := Sample.self_ok;
     media_response := fun _ _ => RequestError;
     input_csv := Some [["product_source_id"]; ["sku-12"]; ["2"]];
     output_glued := Some unterminated_glued |}.

Definition other_brands : value :=
  PDict [("brands", PDict [("other", PDict [("id", PInt 7)])])].

End Fixture.

(** * Properties *)

(** ** Python values *)

Ltac bind_ok H :=
  match type of H with
  | bind ?m _ = Ok _ =>
      let E := fresh "E" in
      destruct m eqn:E; simpl in H; [| discriminate H]
  end.

Lemma eq_str_true v s : Py.eq_str v s = true <-> v = PStr s.
Proof.
  destruct v; simpl; try (split; [discriminate | intros [=]]).
  rewrite String.eqb_eq. split; [intros -> | intros [=]]; congruence.
Qed.

Lemma eq_str_false v s : Py.eq_str v s = false <-> v <> PStr s.
Proof.
  rewrite <- eq_str_true. destruct (Py.eq_str v s); split; congruence.
Qed.

Lemma get_field k v x : Py.get k v = Ok x -> x = field k v.
Proof. destruct v; simpl; congruence. Qed.

Lemma get_dict k v : is_dict v = true -> Py.get k v = Ok (field k v).
Proof. destruct v; simpl; congruence. Qed.

Lemma falsy_field k v : Py.truthy v = false -> field k v = PNone.
Proof. destruct v as [| | | | | |[|? ?]]; simpl; congruence. Qed.

(** [(v or {}).get(k)], when it does not raise, is the total field access. *)
Lemma get_or_field k v x :
  Py.get k (Py.or_ v empty_dict) = Ok x -> x = field k v.
Proof.
  unfold Py.or_. destruct (Py.truthy v) eqn:T.
  - apply get_field.
  - simpl. intros [= <-]. symmetry. by apply falsy_field.
Qed.

Lemma or_dict_is_dict v d :
  absent_or is_dict v = true -> is_dict (Py.or_ v (PDict d)) = true.
Proof.
  unfold absent_or, Py.or_. destruct (Py.truthy v); simpl; auto.
Qed.

Lemma iter_or_entries v l :
  Py.iter (Py.or_ v empty_list) = Ok l ->
  l = entries v \/ exists ks, l = map PStr ks /\ entries v = [].
Proof.
  unfold Py.or_. destruct (Py.truthy v) eqn:T.
  - destruct v; simpl; try discriminate; intros [= <-].
    + right. by exists (Py.string_chars s).
    + by left.
    + right. exists (map fst d). split; [|done]. by rewrite map_map.
  - simpl. intros [= <-]. left.
    destruct v as [| | | | |[|? ?]|]; simpl in *; congruence.
Qed.

(** ** Matching one association *)

Lemma override_any_true overrides target :
  override_any overrides target = Ok true ->
  exists ov, ov ∈ overrides /\ field "source_id" ov = PStr target.
Proof.
  induction overrides as [|ov rest IH]; simpl; [discriminate|].
  intros H. bind_ok H. apply get_or_field in E.
  destruct (Py.eq_str a target) eqn:Q.
  - apply eq_str_true in Q. exists ov. split; [left | congruence].
  - destruct (IH H) as (ov' & Hin & Hov). exists ov'. split; [by right | done].
Qed.

Lemma override_any_false overrides target :
  override_any overrides target = Ok false ->
  forall ov, ov ∈ overrides -> field "source_id" ov <> PStr target.
Proof.
  induction overrides as [|ov rest IH]; simpl; intros H ov' Hin.
  - by apply elem_of_nil in Hin.
  - bind_ok H. apply get_or_field in E.
    destruct (Py.eq_str a target) eqn:Q; [discriminate|].
    apply eq_str_false in Q. apply elem_of_cons in Hin as [-> | Hin].
    + congruence.
    + by apply IH.
Qed.

(** Iterating a dict or a string visits strings; none of them matches. *)
Lemma override_any_strings ks target b :
  override_any (map PStr ks) target = Ok b -> b = false.
Proof.
  induction ks as [|k ks IH]; simpl; [congruence|].
  intros H. bind_ok H. unfold Py.or_ in E.
  destruct (Py.truthy (PStr k)); simpl in E; [discriminate|].
  injection E as <-. simpl in H. auto.
Qed.

Lemma tag_matches_spec tag product target b :
  tag_product tag = Ok product ->
  tag_matches tag product target = Ok b ->
  b = true <-> assoc_matches target tag.
Proof.
  unfold tag_product, tag_matches, assoc_matches, nested_product.
  intros Hp H. bind_ok Hp. injection Hp as <-.
  apply get_field in E. subst a. set (p := field "product" tag) in *.
  bind_ok H. apply get_or_field in E. subst a.
  bind_ok H. rename a into overrides. rename E into Hit.
  bind_ok H. rename a into om. rename E into Hom.
  bind_ok H. apply get_field in E. subst a.
  assert (Hov : om = true <->
    exists ov, ov ∈ entries (field "product_overrides" p)
               /\ field "source_id" ov = PStr target).
  { apply iter_or_entries in Hit as [-> | (ks & -> & Hnil)].
    - destruct om.
      + split; [intros _; by apply override_any_true | done].
      + split; [done|]. intros (ov & Hin & Hsrc).
        by destruct (override_any_false _ _ Hom ov Hin).
    - rewrite Hnil. apply override_any_strings in Hom as ->.
      split; [done|]. intros (ov & Hin & _). by apply elem_of_nil in Hin. }
  destruct (Py.eq_str (field "source_id" tag) target) eqn:Q1.
  { injection H as <-. apply eq_str_true in Q1. tauto. }
  apply eq_str_false in Q1.
  bind_ok H. apply get_or_field in E. subst a.
  destruct (Py.eq_str (field "source_id" p) target) eqn:Q2.
  { injection H as <-. apply eq_str_true in Q2. tauto. }
  apply eq_str_false in Q2. injection H as <-. tauto.
Qed.

Lemma take_product_info_spec tag product d u d' u' :
  tag_product tag = Ok product ->
  take_product_info tag product d u = Ok (d', u') ->
  d' = (if Py.is_none d then assoc_id tag else d)
  /\ u' = (if Py.is_none u then assoc_url tag else u).
Proof.
  unfold tag_product, take_product_info, assoc_id, assoc_url, nested_product.
  intros Hp H. bind_ok Hp. injection Hp as <-. apply get_field in E. subst a.
  bind_ok H. rename E into Hd. bind_ok H. rename E into Hu.
  injection H as <- <-. split.
  - destruct (Py.is_none d); [|congruence].
    bind_ok Hd. apply get_or_field in E. subst a1. unfold Py.or_.
    destruct (Py.truthy _); [congruence|]. by apply get_field in Hd.
  - destruct (Py.is_none u); [|congruence]. by apply get_or_field in Hu.
Qed.

(** ** The inner loop *)

Lemma scan_products_spec tags target d u d' u' :
  scan_products tags target d u = Ok (d', u') ->
  (exists pre tag post,
      tags = (pre ++ tag :: post)%list
      /\ Forall (fun x => ~ assoc_matches target x) pre
      /\ assoc_matches target tag
      /\ d' = (if Py.is_none d then assoc_id tag else d)
      /\ u' = (if Py.is_none u then assoc_url tag else u))
  \/ (Forall (fun x => ~ assoc_matches target x) tags /\ d' = d /\ u' = u).
Proof.
  induction tags as [|tag rest IH]; simpl; intros H.
  - injection H as <- <-. right. auto.
  - bind_ok H. rename a into product. rename E into Hp.
    bind_ok H. rename a into hit. rename E into Hm.
    pose proof (tag_matches_spec _ _ _ _ Hp Hm) as Hspec.
    destruct hit.
    + left. exists [], tag, rest. simpl.
      destruct (take_product_info_spec _ _ _ _ _ _ Hp H) as [-> ->].
      repeat split; auto. by apply Hspec.
    + assert (~ assoc_matches target tag) as Hno
        by (intros Hyes; apply Hspec in Hyes; discriminate).
      destruct (IH H) as [(pre & tag' & post & -> & Hpre & Hyes & Hd & Hu)
                         | (Hall & Hd & Hu)].
      * left. exists (tag :: pre), tag', post. repeat split; auto.
      * right. repeat split; auto.
Qed.

Lemma scan_products_first pre tag post target d u d' u' :
  Forall (fun x => ~ assoc_matches target x) pre ->
  assoc_matches target tag ->
  scan_products (pre ++ tag :: post) target d u = Ok (d', u') ->
  d' = (if Py.is_none d then assoc_id tag else d)
  /\ u' = (if Py.is_none u then assoc_url tag else u).
Proof.
  intros Hpre Hyes. induction Hpre as [|x pre Hx _ IH]; simpl; intros H.
  - bind_ok H. rename E into Hp. bind_ok H.
    destruct a0; [by eapply take_product_info_spec|].
    apply (tag_matches_spec _ _ _ _ Hp E) in Hyes. discriminate.
  - bind_ok H. rename E into Hp. bind_ok H.
    destruct a0; [|by apply IH].
    destruct Hx. by apply (tag_matches_spec _ _ _ _ Hp E).
Qed.

Lemma scan_products_strings k ks target d u :
  scan_products (map PStr (k :: ks)) target d u = Raise AttributeError.
Proof. reflexivity. Qed.

(** The inner loop runs over the record's product associations. *)
Lemma search_products_entries media target d u r :
  search_products media target d u = Ok r ->
  scan_products (entries (field "products" media)) target d u = Ok r.
Proof.
  unfold search_products. intros H. bind_ok H. apply get_field in E. subst a.
  bind_ok H. apply iter_or_entries in E as [-> | (ks & -> & Hnil)]; [done|].
  destruct ks as [|k ks]; [by rewrite Hnil|].
  by rewrite scan_products_strings in H.
Qed.

Lemma search_products_no_match media target d u d' u' :
  ~ record_matches target media ->
  search_products media target d u = Ok (d', u') ->
  d' = d /\ u' = u.
Proof.
  intros Hno H. apply search_products_entries in H.
  apply scan_products_spec in H
    as [(pre & tag & post & Htags & _ & Hyes & _) | (_ & Hd & Hu)]; [|done].
  destruct Hno. exists tag. split; [|done].
  rewrite Htags. apply elem_of_app. right. left.
Qed.

(** Once both fields are set, searching a record changes nothing. *)
Lemma search_products_set media target d u d' u' :
  Py.is_none d = false -> Py.is_none u = false ->
  search_products media target d u = Ok (d', u') ->
  d' = d /\ u' = u.
Proof.
  intros Hd Hu H. apply search_products_entries in H.
  apply scan_products_spec in H
    as [(pre & tag & post & _ & _ & _ & Hd' & Hu') | (_ & Hd' & Hu')];
    [|done].
  by rewrite Hd in Hd'; rewrite Hu in Hu'.
Qed.

(** ** The outer loop *)

Lemma collect_image_spec media urls urls' :
  collect_image media urls = Ok urls' ->
  urls' = (urls ++ image_urls [media])%list.
Proof.
  unfold collect_image, image_urls, image_url. intros H.
  bind_ok H. apply get_field in E. subst a.
  bind_ok H. apply get_or_field in E. subst a.
  bind_ok H. apply get_or_field in E. subst a.
  simpl. rewrite filter_cons, filter_nil.
  destruct (Py.truthy _) eqn:T; injection H as <-.
  - by rewrite decide_True.
  - rewrite decide_False; [by rewrite app_nil_r | congruence].
Qed.

Lemma image_urls_cons media rest :
  image_urls (media :: rest) = (image_urls [media] ++ image_urls rest)%list.
Proof. unfold image_urls. simpl. by rewrite !filter_cons, filter_nil; case_decide. Qed.

Lemma extract_loop_urls media_items target d u urls d' u' urls' :
  extract_loop media_items target d u urls = Ok (d', u', urls') ->
  urls' = (urls ++ image_urls media_items)%list.
Proof.
  revert d u urls.
  induction media_items as [|media rest IH]; simpl; intros d u urls H.
  - injection H as <- <- <-. by rewrite app_nil_r.
  - bind_ok H. apply collect_image_spec in E. subst a.
    rewrite image_urls_cons, app_assoc.
    destruct (negb (Py.is_none d) && negb (Py.is_none u)); [by eapply IH|].
    bind_ok H. destruct a as [d1 u1]. by eapply IH.
Qed.

Lemma extract_loop_no_match media_items target d u urls d' u' urls' :
  Forall (fun m => ~ record_matches target m) media_items ->
  extract_loop media_items target d u urls = Ok (d', u', urls') ->
  d' = d /\ u' = u.
Proof.
  intros Hno. revert d u urls.
  induction Hno as [|media rest Hm _ IH]; simpl; intros d u urls H.
  - by injection H as <- <- <-.
  - bind_ok H.
    destruct (negb (Py.is_none d) && negb (Py.is_none u)); [by eapply IH|].
    bind_ok H. destruct a0 as [d1 u1].
    apply (search_products_no_match _ _ _ _ _ _ Hm) in E0 as [-> ->].
    by eapply IH.
Qed.

(** The early exit against the full scan. *)
Lemma extract_loop_full_early media_items target d u urls r :
  extract_loop_full media_items target d u urls = Ok r ->
  extract_loop media_items target d u urls = Ok r.
Proof.
  revert d u urls.
  induction media_items as [|media rest IH]; intros d u urls H; [done|].
  cbn [extract_loop_full] in H. cbn [extract_loop].
  bind_ok H. bind_ok H. destruct a0 as [d1 u1].
  destruct (negb (Py.is_none d) && negb (Py.is_none u)) eqn:B.
  - apply andb_true_iff in B as [Bd Bu].
    apply negb_true_iff in Bd, Bu.
    apply (search_products_set _ _ _ _ _ _ Bd Bu) in E0 as [-> ->]. by apply IH.
  - simpl. by apply IH.
Qed.

(** ** Well-shaped records never raise *)

Lemma absent_or_cases shape v :
  absent_or shape v = true ->
  (Py.truthy v = false /\ forall w, Py.or_ v w = w)
  \/ (Py.truthy v = true /\ shape v = true /\ forall w, Py.or_ v w = v).
Proof.
  unfold absent_or, Py.or_. destruct (Py.truthy v); simpl; intros H.
  - right. auto.
  - left. auto.
Qed.

Lemma override_any_wf overrides target :
  forallb wf_override overrides = true ->
  exists b, override_any overrides target = Ok b.
Proof.
  induction overrides as [|ov rest IH]; simpl; [eauto|].
  intros [Hov Hrest]%andb_true_iff.
  rewrite (get_dict "source_id" (Py.or_ ov empty_dict))
    by (by apply or_dict_is_dict). simpl.
  destruct (Py.eq_str _ target); eauto.
Qed.

Lemma tag_product_wf tag :
  wf_tag tag = true ->
  exists product, tag_product tag = Ok product /\ wf_product product = true.
Proof.
  unfold wf_tag, tag_product. intros [Hd Hp]%andb_true_iff.
  rewrite (get_dict _ _ Hd). simpl. eexists. split; [done|].
  apply absent_or_cases in Hp as [[_ ->] | (_ & Hp & ->)]; done.
Qed.

Lemma tag_matches_wf tag product target :
  is_dict tag = true -> wf_product product = true ->
  exists b, tag_matches tag product target = Ok b.
Proof.
  unfold wf_product, tag_matches. intros Ht [Hd Ho]%andb_true_iff.
  rewrite (get_dict _ _ Hd). simpl.
  assert (exists l, Py.iter (Py.or_ (field "product_overrides" product) empty_list)
                    = Ok l /\ forallb wf_override l = true) as (l & -> & Hl).
  { apply absent_or_cases in Ho as [[_ ->] | (_ & Ho & ->)].
    - by exists [].
    - destruct (field "product_overrides" product); try discriminate.
      eexists. by split. }
  simpl. destruct (override_any_wf l target Hl) as [om ->]. simpl.
  rewrite (get_dict _ _ Ht). simpl.
  destruct (Py.eq_str _ target); [eauto|].
  rewrite (get_dict _ _ Hd). simpl.
  destruct (Py.eq_str _ target); eauto.
Qed.

Lemma take_product_info_wf tag product d u :
  is_dict tag = true -> is_dict product = true ->
  exists r, take_product_info tag product d u = Ok r.
Proof.
  unfold take_product_info. intros Ht Hp.
  rewrite !(get_dict _ _ Hp), (get_dict _ _ Ht).
  destruct (Py.is_none d), (Py.is_none u); simpl;
    try destruct (Py.truthy _); simpl; eauto.
Qed.

Lemma scan_products_wf tags target d u :
  forallb wf_tag tags = true ->
  exists r, scan_products tags target d u = Ok r.
Proof.
  induction tags as [|tag rest IH]; simpl; [eauto|].
  intros [Ht Hrest]%andb_true_iff.
  destruct (tag_product_wf tag Ht) as (product & -> & Hp). simpl.
  pose proof Ht as [Hd _]%andb_true_iff.
  destruct (tag_matches_wf tag product target Hd Hp) as [hit ->]. simpl.
  destruct hit; [|by apply IH].
  apply take_product_info_wf; [done|].
  by apply andb_true_iff in Hp as [? _].
Qed.

Lemma search_products_wf media target d u :
  wf_media media = true ->
  exists r, search_products media target d u = Ok r.
Proof.
  unfold wf_media, search_products.
  intros [[Hd _]%andb_true_iff Hp]%andb_true_iff.
  rewrite (get_dict _ _ Hd). simpl.
  apply absent_or_cases in Hp as [[_ ->] | (_ & Hp & ->)]; simpl; [eauto|].
  destruct (field "products" media); try discriminate. simpl.
  by apply scan_products_wf.
Qed.

Lemma collect_image_wf media urls :
  wf_media media = true ->
  exists urls', collect_image media urls = Ok urls'.
Proof.
  unfold wf_media, collect_image.
  intros [[Hd Hi]%andb_true_iff _]%andb_true_iff.
  rewrite (get_dict _ _ Hd). simpl.
  assert (exists o, Py.get "original" (Py.or_ (field "image_sizes" media) empty_dict)
                    = Ok o /\ absent_or is_dict o = true) as (o & -> & Ho).
  { apply absent_or_cases in Hi as [[_ ->] | (_ & Hi & ->)].
    - by exists PNone.
    - apply andb_true_iff in Hi as [Hi Ho].
      rewrite (get_dict _ _ Hi). eauto. }
  simpl. rewrite (get_dict "url" (Py.or_ o empty_dict))
    by (by apply or_dict_is_dict). simpl.
  destruct (Py.truthy _); eauto.
Qed.

Lemma extract_loop_full_wf media_items target d u urls :
  Forall (fun m => wf_media m = true) media_items ->
  exists r, extract_loop_full media_items target d u urls = Ok r.
Proof.
  intros Hwf. revert d u urls.
  induction Hwf as [|media rest Hm _ IH]; intros d u urls;
    cbn [extract_loop_full]; [eauto|].
  destruct (collect_image_wf media urls Hm) as [urls' ->].
  destruct (search_products_wf media target d u Hm) as [[d1 u1] ->].
  simpl. apply IH.
Qed.

Lemma extract_loop_wf media_items target d u urls :
  Forall (fun m => wf_media m = true) media_items ->
  exists r, extract_loop media_items target d u urls = Ok r.
Proof.
  intros Hwf.
  destruct (extract_loop_full_wf media_items target d u urls Hwf) as [r Hr].
  exists r. by apply extract_loop_full_early.
Qed.

(** ** Which exceptions can be raised *)

Ltac bind_raise H :=
  match type of H with
  | bind ?m _ = Raise _ =>
      let E := fresh "E" in
      destruct m eqn:E; simpl in H; [| injection H as <-]
  end.

Lemma get_raise k v x : Py.get k v = Raise x -> x = AttributeError.
Proof. destruct v; simpl; congruence. Qed.

Lemma iter_raise v x : Py.iter v = Raise x -> x = TypeError.
Proof. destruct v; simpl; congruence. Qed.

Lemma join_raise sep l x : Py.join sep l = Raise x -> x = TypeError.
Proof.
  induction l as [|v l IH]; simpl; [done|].
  destruct v; try congruence. destruct l as [|v' l']; [done|].
  intros H. bind_raise H; [done | by apply IH].
Qed.

Lemma override_any_raise overrides target x :
  override_any overrides target = Raise x -> x = AttributeError.
Proof.
  induction overrides as [|ov rest IH]; simpl; [done|].
  intros H. bind_raise H; [|by eapply get_raise].
  destruct (Py.eq_str a target); [done | by apply IH].
Qed.

Lemma tag_product_raise tag x :
  tag_product tag = Raise x -> x = AttributeError.
Proof.
  unfold tag_product. intros H. bind_raise H; [done | by eapply get_raise].
Qed.

Lemma tag_matches_raise tag product target x :
  tag_matches tag product target = Raise x -> shape_error x.
Proof.
  unfold tag_matches, shape_error. intros H.
  bind_raise H; [|left; by eapply get_raise].
  bind_raise H; [|right; by eapply iter_raise].
  bind_raise H; [|left; by eapply override_any_raise].
  bind_raise H; [|left; by eapply get_raise].
  destruct (Py.eq_str a2 target); [done|].
  bind_raise H; [|left; by eapply get_raise].
  by destruct (Py.eq_str a3 target).
Qed.

Lemma take_product_info_raise tag product d u x :
  take_product_info tag product d u = Raise x -> x = AttributeError.
Proof.
  unfold take_product_info. intros H. bind_raise H.
  - bind_raise H; [done|].
    destruct (Py.is_none u); [by eapply get_raise | done].
  - destruct (Py.is_none d); [|done].
    bind_raise E; [|by eapply get_raise].
    destruct (Py.truthy a); [done | by eapply get_raise].
Qed.

Lemma scan_products_raise tags target d u x :
  scan_products tags target d u = Raise x -> shape_error x.
Proof.
  induction tags as [|tag rest IH]; simpl; [done|]. intros H.
  bind_raise H; [|left; by eapply tag_product_raise].
  bind_raise H; [|by eapply tag_matches_raise].
  destruct a0; [left; by eapply take_product_info_raise | by apply IH].
Qed.

Lemma search_products_raise media target d u x :
  search_products media target d u = Raise x -> shape_error x.
Proof.
  unfold search_products. intros H.
  bind_raise H; [|left; by eapply get_raise].
  bind_raise H; [|right; by eapply iter_raise].
  by eapply scan_products_raise.
Qed.

Lemma collect_image_raise media urls x :
  collect_image media urls = Raise x -> x = AttributeError.
Proof.
  unfold collect_image. intros H.
  bind_raise H; [|by eapply get_raise].
  bind_raise H; [|by eapply get_raise].
  bind_raise H; [|by eapply get_raise].
  by destruct (Py.truthy a1).
Qed.

Lemma extract_loop_raise media_items target d u urls x :
  extract_loop media_items target d u urls = Raise x -> shape_error x.
Proof.
  revert d u urls.
  induction media_items as [|media rest IH]; intros d u urls H; [done|].
  cbn [extract_loop] in H.
  bind_raise H; [|left; by eapply collect_image_raise].
  destruct (negb (Py.is_none d) && negb (Py.is_none u)); [by eapply IH|].
  bind_raise H; [|by eapply search_products_raise].
  destruct a0 as [d1 u1]. by eapply IH.
Qed.

Lemma extract_loop_full_raise media_items target d u urls x :
  extract_loop_full media_items target d u urls = Raise x -> shape_error x.
Proof.
  revert d u urls.
  induction media_items as [|media rest IH]; intros d u urls H; [done|].
  cbn [extract_loop_full] in H.
  bind_raise H; [|left; by eapply collect_image_raise].
  bind_raise H; [|by eapply search_products_raise].
  destruct a0 as [d1 u1]. by eapply IH.
Qed.

(** ** The extractor: claims C2 to C6 *)

Lemma extract_product_info_wf media_items target :
  Forall (fun m => wf_media m = true) media_items ->
  exists d u urls,
    extract_product_info media_items target
    = Ok (d, u, length media_items, urls).
Proof.
  intros Hwf. unfold extract_product_info.
  destruct (extract_loop_wf media_items target PNone PNone [] Hwf)
    as [[[d u] urls] ->].
  simpl. eauto.
Qed.

(** C2. In the extractor an association is taken as a match exactly when
    the three-way disjunction holds of it (its own source_id, the nested
    product's source_id, or the source_id of some entry of the nested
    product's product_overrides equals the target); and whenever the search
    of a record returns, a record with a matching association gets its
    values from the first matching association in list order, while a
    record without one leaves the values as they were. *)
Theorem record_match_rule media target d u d' u' :
  search_products media target d u = Ok (d', u') ->
  (forall tag product hit,
      tag_product tag = Ok product ->
      tag_matches tag product target = Ok hit ->
      hit = true <-> assoc_matches target tag)
  /\ (record_matches target media ->
      exists pre tag post,
        entries (field "products" media) = (pre ++ tag :: post)%list
        /\ Forall (fun x => ~ assoc_matches target x) pre
        /\ assoc_matches target tag
        /\ d' = (if Py.is_none d then assoc_id tag else d)
        /\ u' = (if Py.is_none u then assoc_url tag else u))
  /\ (~ record_matches target media -> d' = d /\ u' = u).
Proof.
  intros H. split; [|split].
  - intros tag product hit. apply tag_matches_spec.
  - intros (tag0 & Hin & Hyes0). apply search_products_entries in H.
    apply scan_products_spec in H
      as [(pre & tag & post & Htags & Hpre & Hyes & Hd & Hu) | (Hall & _)].
    + by exists pre, tag, post.
    + rewrite Forall_forall in Hall. by destruct (Hall tag0 Hin).
  - intros Hno. by eapply search_products_no_match.
Qed.

(** C3, as amended.  When the first matching association of a record is
    found, the internal id, if still unset, becomes the nested product's id
    when that value is truthy and the association's own product_id
    otherwise (so also when the id is present but 0 or empty); the canonical
    URL, if still unset, becomes the nested product's url field.  A value
    already set is kept. *)
Theorem matched_values pre tag post target d u d' u' :
  Forall (fun x => ~ assoc_matches target x) pre ->
  assoc_matches target tag ->
  scan_products (pre ++ tag :: post) target d u = Ok (d', u') ->
  d' = (if Py.is_none d then
          if Py.truthy (field "id" (field "product" tag))
          then field "id" (field "product" tag)
          else field "product_id" tag
        else d)
  /\ u' = (if Py.is_none u then field "url" (field "product" tag) else u).
Proof. apply scan_products_first. Qed.

(** C4. Whatever the extractor returns, its media count is the number of
    records of the input list; and on a list of well-shaped records it does
    return. *)
Theorem media_count_is_length media_items target :
  (forall d u c urls,
      extract_product_info media_items target = Ok (d, u, c, urls) ->
      c = length media_items)
  /\ (Forall (fun m => wf_media m = true) media_items ->
      exists d u urls,
        extract_product_info media_items target
        = Ok (d, u, length media_items, urls)).
Proof.
  split; [|apply extract_product_info_wf].
  unfold extract_product_info. intros d u c urls H.
  bind_ok H. destruct a as [[d0 u0] urls0]. by injection H as _ _ <- _.
Qed.

(** C5. On a list none of whose records matches the target, the extractor
    returns absent id and absent URL together with the image URLs of all
    the records in list order: that is its result whenever it returns, and
    it returns on every list of well-shaped records. *)
Theorem no_match_result media_items target :
  Forall (fun m => ~ record_matches target m) media_items ->
  (forall r,
      extract_product_info media_items target = Ok r ->
      r = (PNone, PNone, length media_items, image_urls media_items))
  /\ (Forall (fun m => wf_media m = true) media_items ->
      extract_product_info media_items target
      = Ok (PNone, PNone, length media_items, image_urls media_items)).
Proof.
  intros Hno.
  assert (Hres : forall r,
    extract_product_info media_items target = Ok r ->
    r = (PNone, PNone, length media_items, image_urls media_items)).
  { unfold extract_product_info. intros r H. bind_ok H.
    destruct a as [[d u] urls]. injection H as <-.
    destruct (extract_loop_no_match _ _ _ _ _ _ _ _ Hno E) as [-> ->].
    by apply extract_loop_urls in E as ->. }
  split; [done|]. intros Hwf.
  destruct (extract_product_info_wf media_items target Hwf)
    as (d & u & urls & H).
  rewrite H. f_equal. by apply Hres.
Qed.

(** C6, as amended.  Whenever the variant that searches every record
    returns a result, the extractor with its early exit returns the same
    one, and on every list of well-shaped records both return, with equal
    results.  The converse holds up to failures of the full scan: when the
    extractor returns, the full scan returns the same result or raises
    AttributeError or TypeError, which it does on an ill-shaped product
    association of a record that the extractor, having its match, no longer
    searches. *)
Theorem early_exit_refines_full_scan media_items target :
  (forall r,
      extract_product_info_full media_items target = Ok r ->
      extract_product_info media_items target = Ok r)
  /\ (Forall (fun m => wf_media m = true) media_items ->
      exists r,
        extract_product_info_full media_items target = Ok r
        /\ extract_product_info media_items target = Ok r)
  /\ (forall r,
        extract_product_info media_items target = Ok r ->
        extract_product_info_full media_items target = Ok r
        \/ (exists x,
              extract_product_info_full media_items target = Raise x
              /\ shape_error x)).
Proof.
  assert (Hfull : forall r,
    extract_product_info_full media_items target = Ok r ->
    extract_product_info media_items target = Ok r).
  { unfold extract_product_info_full, extract_product_info. intros r H.
    bind_ok H. by rewrite (extract_loop_full_early _ _ _ _ _ _ E). }
  split; [done|]. split.
  - intros Hwf.
    destruct (extract_loop_full_wf media_items target PNone PNone [] Hwf)
      as [[[d u] urls] E].
    exists (d, u, length media_items, urls).
    assert (extract_product_info_full media_items target
            = Ok (d, u, length media_items, urls)) as H
      by (unfold extract_product_info_full; by rewrite E).
    split; [done | by apply Hfull].
  - intros r Hr.
    destruct (extract_product_info_full media_items target) as [r' | x] eqn:E
      in |- *.
    + left. apply Hfull in E. congruence.
    + right. exists x. split; [done|].
      unfold extract_product_info_full in E.
      bind_raise E; [by destruct a as [[? ?] ?]|].
      by eapply extract_loop_full_raise.
Qed.

(** ** The media fetcher: claim C7 *)

(** C7. The media fetcher returns the empty record list when the request
    raises, when the status is not 200, when the body does not parse, and
    when the parsed body is not a JSON array; the array of a 200 response is
    returned as it is. *)
Theorem fetch_media_total requests_get product_source_id :
  (requests_get product_source_id = RequestError ->
   fetch_media_for_product_source_id requests_get product_source_id = [])
  /\ (forall status_code body,
      requests_get product_source_id = Response status_code body ->
      status_code <> 200%Z ->
      fetch_media_for_product_source_id requests_get product_source_id = [])
  /\ (requests_get product_source_id = Response 200 None ->
      fetch_media_for_product_source_id requests_get product_source_id = [])
  /\ (forall data,
      requests_get product_source_id = Response 200 (Some data) ->
      (forall l, data <> PList l) ->
      fetch_media_for_product_source_id requests_get product_source_id = [])
  /\ (forall l,
      requests_get product_source_id = Response 200 (Some (PList l)) ->
      fetch_media_for_product_source_id requests_get product_source_id = l).
Proof.
  unfold fetch_media_for_product_source_id.
  repeat split.
  - by intros ->.
  - intros status_code body -> Hne.
    by destruct (Z.eqb_spec status_code 200).
  - by intros ->.
  - intros data -> Hne. simpl. destruct data; try done. by destruct (Hne l).
  - by intros l ->.
Qed.

(** ** The display link: claim C8 *)

Section LinkProperties.

Variable str_other : value -> string.

(** C8, as amended.  The display link is the fixed URL template populated
    with the account name and the internal id exactly when both are
    truthy (a non-empty name, an id that is neither absent nor 0 nor
    empty), and the empty string otherwise; account name acme with id 42
    gives the populated template and a missing id gives the empty
    string. *)
Theorem display_link_rule brand_name dash_id :
  (Py.truthy brand_name = true -> Py.truthy dash_id = true ->
   build_dash_library_link str_other brand_name dash_id
   = "https://app.dashhudson.com/" +:+ py_str str_other brand_name
     +:+ "/library/products?d=product%7CproductId%3A"
     +:+ py_str str_other dash_id)
  /\ (Py.truthy brand_name = false \/ Py.truthy dash_id = false ->
      build_dash_library_link str_other brand_name dash_id = "")
  /\ (build_dash_library_link str_other brand_name dash_id <> ""
      <-> Py.truthy brand_name = true /\ Py.truthy dash_id = true)
  /\ build_dash_library_link str_other (PStr "acme") (PInt 42)
     = "https://app.dashhudson.com/acme/library/products?d=product%7CproductId%3A42"
  /\ build_dash_library_link str_other brand_name PNone = "".
Proof.
  unfold build_dash_library_link.
  destruct (Py.truthy brand_name) eqn:Tb, (Py.truthy dash_id) eqn:Td; simpl;
    repeat split; try done; try (intros [? | ?]; done);
    try (intros [? ?]; done); by rewrite orb_true_r.
Qed.

End LinkProperties.

(** ** The input reader: claim C10 *)

Lemma append_nil_l s : "" +:+ s = s.
Proof. reflexivity. Qed.

Lemma append_cons c a b : String c a +:+ b = String c (a +:+ b).
Proof. reflexivity. Qed.

Lemma lstrip_spec s :
  exists pre, s = pre +:+ lstrip s /\ all_space pre = true
              /\ starts_with_space (lstrip s) = false.
Proof.
  induction s as [|c s (pre & Hs & Hpre & Hst)]; simpl.
  - by exists "".
  - destruct (is_space c) eqn:Hc.
    + exists (String c pre). rewrite append_cons, <- Hs. simpl.
      by rewrite Hc, Hpre.
    + exists "". simpl. by rewrite Hc.
Qed.

Lemma all_space_ends c s :
  all_space (String c s) = true -> ends_with_space (String c s) = true.
Proof.
  revert c. induction s as [|c2 s IH]; intros c; simpl.
  - by rewrite andb_true_r.
  - intros [_ Hall]%andb_true_iff. by apply IH.
Qed.

Lemma all_space_app a b :
  all_space (a +:+ b) = all_space a && all_space b.
Proof.
  induction a as [|c a IH]; [done|].
  rewrite append_cons. simpl. by rewrite IH, andb_assoc.
Qed.

Lemma rstrip_spec s :
  exists post, s = rstrip s +:+ post /\ all_space post = true
               /\ ends_with_space (rstrip s) = false
               /\ starts_with_space (rstrip s) = starts_with_space s
                  && negb (all_space s).
Proof.
  induction s as [|c s (post & Hs & Hpost & Hend & Hst)]; simpl.
  - by exists "".
  - destruct (rstrip s) as [|c' s'] eqn:Hr.
    + rewrite append_nil_l in Hs. subst post. destruct (is_space c) eqn:Hc.
      * exists (String c s). rewrite append_nil_l. simpl. by rewrite Hc, Hpost.
      * exists s. rewrite append_cons, append_nil_l. simpl. by rewrite Hc.
    + exists post. rewrite append_cons, <- Hs. repeat split; try done.
      simpl. destruct (is_space c) eqn:Hc; simpl; [|done].
      destruct (all_space s) eqn:Hall; [|done].
      rewrite Hs, all_space_app in Hall.
      apply andb_true_iff in Hall as [Hall _].
      apply all_space_ends in Hall. congruence.
Qed.

(** [strip] removes a run of whitespace at each end, and nothing else. *)
Lemma strip_spec s :
  exists pre post,
    s = pre +:+ strip s +:+ post
    /\ all_space pre = true /\ all_space post = true
    /\ starts_with_space (strip s) = false
    /\ ends_with_space (strip s) = false.
Proof.
  unfold strip.
  destruct (lstrip_spec s) as (pre & Hs & Hpre & Hst).
  destruct (rstrip_spec (lstrip s)) as (post & Hl & Hpost & Hend & Hst').
  exists pre, post. rewrite <- Hl, <- Hs. repeat split; try done.
  by rewrite Hst', Hst.
Qed.

Lemma strip_all_space s : all_space s = true -> strip s = "".
Proof.
  intros Hall. destruct (strip_spec s) as (pre & post & Hs & _ & _ & Hst & _).
  rewrite Hs, !all_space_app in Hall.
  apply andb_true_iff in Hall as [_ [Hall _]%andb_true_iff].
  destruct (strip s); simpl in *; [done|].
  apply andb_true_iff in Hall as [? _]. congruence.
Qed.

Lemma read_loop_spec (rows : list (gmap string (option string))) acc :
  foldl (fun values row =>
           let value := strip (get_or_empty "product_source_id" row) in
           if negb (String.eqb value "") then (values ++ [value])%list
           else values) acc rows
  = (acc ++ filter (fun v => v <> "")
              (map (fun row => strip (get_or_empty "product_source_id" row))
                   rows))%list.
Proof.
  revert acc. induction rows as [|row rows IH]; intros acc; simpl.
  - by rewrite filter_nil, app_nil_r.
  - rewrite IH, filter_cons.
    destruct (String.eqb_spec (strip (get_or_empty "product_source_id" row)) "")
      as [Heq | Hne]; simpl.
    + by rewrite decide_False by (intros ?; done).
    + rewrite decide_True by done. by rewrite <- app_assoc.
Qed.

(** What a [DictReader] row holds under a field name. *)
Lemma foldl_some_notin (l : list (string * string))
    (d : gmap string (option string)) k :
  k ∉ l.*1 ->
  foldl (fun d kv => <[kv.1 := Some kv.2]> d) d l !! k = d !! k.
Proof.
  revert d. induction l as [|[k' v] l IH]; intros d Hk; simpl; [done|].
  simpl in Hk. apply not_elem_of_cons in Hk as [Hne Hk].
  rewrite IH by done. by rewrite lookup_insert_ne.
Qed.

Lemma foldl_some_in (l : list (string * string))
    (d : gmap string (option string)) k :
  is_Some (d !! k) \/ k ∈ l.*1 ->
  is_Some (foldl (fun d kv => <[kv.1 := Some kv.2]> d) d l !! k).
Proof.
  revert d. induction l as [|[k' v] l IH]; intros d Hk; simpl.
  - destruct Hk as [? | Hk]; [done|]. by apply elem_of_nil in Hk.
  - apply IH. destruct (decide (k' = k)) as [-> | Hne].
    + left. by rewrite lookup_insert_eq.
    + rewrite lookup_insert_ne by done.
      destruct Hk as [? | Hk]; [by left|]. right.
      simpl in Hk. apply elem_of_cons in Hk as [-> | ?]; done.
Qed.

Lemma foldl_none (ks : list string) (d : gmap string (option string)) k :
  foldl (fun d k => <[k := None]> d) d ks !! k
  = if decide (k ∈ ks) then Some None else d !! k.
Proof.
  revert d. induction ks as [|k' ks IH]; intros d.
  - case_decide as Hin; [by apply elem_of_nil in Hin | done].
  - cbn [foldl]. rewrite IH.
    destruct (decide (k ∈ ks)) as [Hin | Hnin].
    + by rewrite decide_True by (by right).
    + destruct (decide (k' = k)) as [-> | Hne].
      * rewrite decide_True by left. by rewrite lookup_insert_eq.
      * rewrite decide_False by (intros [-> | ?]%elem_of_cons; done).
        by rewrite lookup_insert_ne.
Qed.

Lemma foldl_some_lookup names (row : csv_row)
    (d : gmap string (option string)) k i c :
  NoDup names -> names !! i = Some k -> row !! i = Some c ->
  foldl (fun d kv => <[kv.1 := Some kv.2]> d) d (zip names row) !! k
  = Some (Some c).
Proof.
  intros Hnd. revert row d i.
  induction Hnd as [|n ns Hn Hnd IH]; intros row d i Hk Hc; [done|].
  destruct row as [|c' cs]; [done|]. simpl. destruct i as [|i]; simpl in *.
  - injection Hk as ->. injection Hc as ->.
    rewrite foldl_some_notin; [by rewrite lookup_insert_eq|].
    intros Hin. apply Hn. apply list_elem_of_fmap in Hin as ([a b] & -> & Hin).
    by apply elem_of_zip_l in Hin.
  - by eapply IH.
Qed.

Lemma row_dict_lookup names row k i :
  NoDup names -> names !! i = Some k ->
  DictReader.row_dict names row !! k = Some (row !! i).
Proof.
  intros Hnd Hk. unfold DictReader.row_dict. rewrite foldl_none.
  destruct (row !! i) as [c|] eqn:Hc.
  - rewrite decide_False; [by eapply foldl_some_lookup|].
    intros (j & Hj)%list_elem_of_lookup. rewrite lookup_drop in Hj.
    pose proof (NoDup_lookup _ _ _ _ Hnd Hk Hj) as ->.
    apply lookup_lt_Some in Hc. lia.
  - rewrite decide_True; [done|].
    apply lookup_ge_None in Hc. apply list_elem_of_lookup.
    exists (i - length row). rewrite lookup_drop, <- Hk. f_equal. lia.
Qed.

Lemma row_dict_is_Some names row k :
  k ∈ names -> is_Some (DictReader.row_dict names row !! k).
Proof.
  intros Hin. unfold DictReader.row_dict. rewrite foldl_none.
  case_decide; [done|]. apply foldl_some_in. right.
  rewrite <- (take_drop (length row) names) in Hin.
  apply elem_of_app in Hin as [Hin | Hin]; [|done].
  assert (zip names row = zip (take (length row) names) row) as ->.
  { clear. revert row. induction names as [|n ns IH]; intros [|c cs];
      simpl; try done. by rewrite <- IH. }
  rewrite fst_zip; [done|]. rewrite length_take. lia.
Qed.

Lemma get_or_empty_cell names row k i :
  NoDup names -> names !! i = Some k ->
  get_or_empty k (DictReader.row_dict names row) = default "" (row !! i).
Proof.
  intros Hnd Hk. unfold get_or_empty.
  rewrite (row_dict_lookup _ _ _ _ Hnd Hk). by destruct (row !! i).
Qed.

(** C10. For an input file whose header has the product_source_id column,
    the reader returns, in row order, the stripped product_source_id value
    of every non-blank row for which that stripped value is not empty: every
    returned value is non-empty with no whitespace at either end, a value
    that is all whitespace strips to the empty string and is left out, and
    under a header without repeated names the value of a row is its cell in
    the column's position, or empty when the row is too short. *)
Theorem read_product_source_ids_spec header rows :
  "product_source_id" ∈ header ->
  exists values,
    read_product_source_ids (Some (header :: rows)) = Ok values
    /\ values
       = filter (fun v => v <> "")
           (map (fun r => strip (get_or_empty "product_source_id"
                                   (DictReader.row_dict header r)))
                (filter (fun r => r <> []) rows))
    /\ Forall (fun v => v <> "" /\ starts_with_space v = false
                        /\ ends_with_space v = false) values
    /\ (forall s, all_space s = true -> strip s = "")
    /\ (forall i r,
          NoDup header -> header !! i = Some "product_source_id" ->
          get_or_empty "product_source_id" (DictReader.row_dict header r)
          = default "" (r !! i)).
Proof.
  intros Hcol. eexists. split; [|split; [reflexivity|split; [|split]]].
  - unfold read_product_source_ids. simpl.
    rewrite bool_decide_true by done. by rewrite read_loop_spec, map_map.
  - apply Forall_forall. intros v [Hne Hin]%list_elem_of_filter.
    apply list_elem_of_fmap in Hin as (r & -> & _).
    destruct (strip_spec (get_or_empty "product_source_id"
                            (DictReader.row_dict header r)))
      as (pre & post & _ & _ & _ & Hst & Hend).
    done.
  - apply strip_all_space.
  - intros i r Hnd Hi. by apply get_or_empty_cell.
Qed.

(** ** The resume set *)

Lemma add_processed_spec (dicts : list (gmap string (option string))) acc :
  Forall (fun d => is_Some (d !! "product_id")) dicts ->
  exists p,
    add_processed dicts acc = Ok p
    /\ forall v, v ∈ p <->
         v ∈ acc \/ exists d, d ∈ dicts /\ d !! "product_id" = Some v.
Proof.
  intros Hall. revert acc.
  induction Hall as [|d dicts [v Hv] _ IH]; intros acc; simpl.
  - exists acc. split; [done|]. intros v. split; [by left|].
    intros [? | (d & Hin & _)]; [done | by apply elem_of_nil in Hin].
  - unfold getitem. rewrite Hv. simpl.
    destruct (IH ({[ v ]} ∪ acc)) as (p & -> & Hp).
    exists p. split; [done|]. intros v'. rewrite Hp. split.
    + intros [[->%elem_of_singleton | ?]%elem_of_union | (d' & Hin & Hd')].
      * right. exists d. split; [left | done].
      * by left.
      * right. exists d'. split; [by right | done].
    + intros [? | (d' & Hin & Hd')].
      { left. apply elem_of_union. by right. }
      apply elem_of_cons in Hin as [-> | Hin].
      * left. rewrite Hv in Hd'. injection Hd' as ->.
        apply elem_of_union. left. by apply elem_of_singleton.
      * right. by exists d'.
Qed.

Lemma rows_have_fields file k :
  k ∈ default [] (DictReader.fieldnames file) ->
  Forall (fun d => is_Some (d !! k)) (DictReader.rows file).
Proof.
  destruct file as [|names rest]; simpl; [by constructor|].
  intros Hk. apply Forall_forall. intros d (r & -> & _)%list_elem_of_fmap.
  by apply row_dict_is_Some.
Qed.

(** The resume tracker never raises. *)
Lemma load_already_processed_rows_total out :
  exists processed, load_already_processed_rows out = Ok processed.
Proof.
  destruct out as [file|]; simpl; [|by eexists].
  case_bool_decide as Hk; [|by eexists].
  destruct (add_processed_spec (DictReader.rows file) ∅
              (rows_have_fields _ _ Hk)) as (p & -> & _).
  by eexists.
Qed.

Lemma NoDup_fieldnames : NoDup fieldnames.
Proof. compute_done. Qed.

(** Under the script's own header the resume set holds the first cell of
    every non-blank row. *)
Lemma resume_set_of_script_file rows processed id :
  load_already_processed_rows (Some (fieldnames :: rows)) = Ok processed ->
  Some id ∈ processed <-> exists row, row ∈ rows /\ head row = Some id.
Proof.
  unfold load_already_processed_rows.
  rewrite bool_decide_true by (simpl; left).
  destruct (add_processed_spec (DictReader.rows (fieldnames :: rows)) ∅
              (rows_have_fields (fieldnames :: rows) "product_id"
                 ltac:(simpl; left))) as (p & -> & Hp).
  intros [= <-]. rewrite Hp. simpl. split.
  - intros [Hempty | (d & Hin & Hd)]; [by apply not_elem_of_empty in Hempty|].
    apply list_elem_of_fmap in Hin as (row & -> & [_ Hin]%list_elem_of_filter).
    rewrite (row_dict_lookup fieldnames row "product_id" 0 NoDup_fieldnames)
      in Hd by done.
    injection Hd as Hd. exists row. by rewrite head_lookup.
  - intros (row & Hin & Hhead). right.
    exists (DictReader.row_dict fieldnames row). split.
    + apply list_elem_of_fmap. exists row. split; [done|].
      apply list_elem_of_filter. split; [|done]. by intros ->.
    + rewrite (row_dict_lookup fieldnames row "product_id" 0 NoDup_fieldnames)
        by done.
      by rewrite <- head_lookup, Hhead.
Qed.

Lemma read_ids_nonempty f ids :
  read_product_source_ids f = Ok ids -> Forall (fun id => id <> "") ids.
Proof.
  destruct f as [file|]; simpl; [|done].
  case_bool_decide; [|done]. rewrite read_loop_spec. intros [= <-].
  apply Forall_forall. by intros v [Hne _]%list_elem_of_filter.
Qed.

(** ** The driver: claims C1 and C9 *)

Lemma appended_app evs1 evs2 :
  appended (evs1 ++ evs2) = (appended evs1 ++ appended evs2)%list.
Proof. unfold appended. apply omap_app. Qed.

Lemma event_ok_shift processed idx id rest ev :
  event_ok processed (S idx) rest ev ->
  event_ok processed idx (id :: rest) ev.
Proof.
  destruct ev as [i id' | i id' | row |]; simpl; [| |done|done];
    intros (Hp & Hle & Hl); (split; [done|]); (split; [lia|]);
    by replace (i - idx) with (S (i - S idx)) by lia.
Qed.

Section DriverProperties.

Variable str_other : value -> string.

Lemma make_row_id brand_name media_items id row :
  make_row str_other brand_name media_items id = Ok row ->
  row_id (writerow str_other row) = id.
Proof.
  unfold make_row. intros H. bind_ok H. destruct a as [[[d u] c] urls].
  bind_ok H. injection H as <-.
  unfold row_id, writerow. simpl.
  by rewrite !lookup_insert_ne, lookup_insert_eq by done.
Qed.

Lemma written_file_step out row new :
  written_file (append_row str_other out row true) new
  = written_file out (writerow str_other row :: new).
Proof.
  unfold append_row, written_file.
  destruct out as [file|], new as [|r new]; simpl; try done.
  - by rewrite <- app_assoc.
Qed.

(** Everything one run of the loop does, event by event. *)
Lemma main_loop_trace e brand_name processed glue ids :
  forall idx w w' r,
    main_loop str_other e brand_name processed glue idx ids w = (w', r) ->
    exists evs,
      events w' = (events w ++ evs)%list
      /\ map row_id (appended evs)
         `prefix_of` filter (fun id => Some id ∉ processed) ids
      /\ (r = Ok tt ->
          map row_id (appended evs)
          = filter (fun id => Some id ∉ processed) ids)
      /\ Forall (fun row => length row = 6) (appended evs)
      /\ paced evs = true
      /\ length (filter (fun ev => is_sleep ev = true) evs)
         = length (appended evs)
      /\ length (filter (fun ev => is_fetching ev = true) evs)
         = length (appended evs) + (match r with Ok _ => 0 | Raise _ => 1 end)
      /\ Forall (event_ok processed idx ids) evs
      /\ (glue = None ->
          output_csv w' = written_file (output_csv w) (appended evs)).
Proof.
  induction ids as [|id rest IH]; intros idx w w' r; simpl.
  - intros [= <- <-]. exists []. rewrite app_nil_r.
    repeat split; try done; by apply prefix_nil.
  - rewrite filter_cons. case_bool_decide as Hin.
    + rewrite decide_False by (intros Hn; by apply Hn).
      intros H. apply IH in H
        as (evs & Hev & Hpre & Hall & Hlen & Hpaced & Hsl & Hfe & Hok & Hout).
      exists (Skipping idx id :: evs). simpl in Hev, Hout.
      rewrite <- app_assoc in Hev.
      assert (Forall (event_ok processed idx (id :: rest))
                (Skipping idx id :: evs)) as Hok'.
      { constructor.
        - simpl. split; [done|]. split; [lia|]. by rewrite Nat.sub_diag.
        - eapply Forall_impl; [done|]. intros ev. apply event_ok_shift. }
      by repeat split.
    + rewrite decide_True by done.
      destruct (make_row _ _ _ _) as [row | x] eqn:Hrow.
      * intros H. apply IH in H
          as (evs & Hev & Hpre & Hall & Hlen & Hpaced & Hsl & Hfe & Hok & Hout).
        simpl in Hev, Hout. rewrite <- !app_assoc in Hev.
        exists (Fetching idx id :: Appending (writerow str_other row)
                  :: Sleep :: evs).
        assert (Forall (event_ok processed idx (id :: rest))
                  (Fetching idx id :: Appending (writerow str_other row)
                     :: Sleep :: evs)) as Hok'.
        { constructor; [|constructor; [done|constructor; [done|]]].
          - simpl. split; [done|]. split; [lia|]. by rewrite Nat.sub_diag.
          - eapply Forall_impl; [done|]. intros ev. apply event_ok_shift. }
        change (appended (Fetching idx id :: Appending (writerow str_other row)
                            :: Sleep :: evs))
          with (writerow str_other row :: appended evs).
        rewrite !map_cons, (make_row_id _ _ _ _ Hrow).
        split; [done|]. split; [by apply prefix_cons|].
        split; [intros Hr; by rewrite Hall|].
        split; [by constructor|]. split; [done|].
        split; [rewrite !filter_cons; simpl; by rewrite Hsl|].
        split; [rewrite !filter_cons; simpl; by rewrite Hfe|].
        split; [done|].
        intros ->. rewrite (Hout eq_refl). unfold append_row_bytes.
        by rewrite written_file_step.
      * intros [= <- <-]. exists [Fetching idx id].
        assert (Forall (event_ok processed idx (id :: rest))
                  [Fetching idx id]) as Hok'.
        { constructor; [|done]. simpl. split; [done|]. split; [lia|].
          by rewrite Nat.sub_diag. }
        repeat split; try done; by apply prefix_nil.
Qed.

Lemma main_loop_all_processed e brand_name processed glue ids :
  (forall id, id ∈ ids -> Some id ∈ processed) ->
  forall idx w,
    main_loop str_other e brand_name processed glue idx ids w
    = ({| output_csv := output_csv w;
          events := (events w ++ skip_events idx ids)%list |}, Ok tt).
Proof.
  induction ids as [|id rest IH]; intros Hall idx w; simpl.
  - rewrite app_nil_r. by destruct w.
  - rewrite bool_decide_true by (apply Hall; left).
    rewrite IH by (intros id' Hin; apply Hall; by right).
    simpl. by rewrite <- app_assoc.
Qed.

(** What [main] does once the startup steps have succeeded. *)
Lemma main_started e out :
  (exists x, main str_other e out
             = ({| output_csv := out; events := [] |}, Raise x))
  \/ (exists brand_name ids processed,
        read_product_source_ids (input_csv e) = Ok ids
        /\ load_already_processed_rows out = Ok processed
        /\ main str_other e out
           = main_loop str_other e brand_name processed
               (match out with Some _ => output_glued e | None => None end)
               1 ids {| output_csv := out; events := [] |}).
Proof.
  unfold main.
  destruct (_ || _); [left; by eexists|].
  destruct (get_brand_name _ _) as [brand_name|]; [|left; by eexists].
  destruct (read_product_source_ids _) as [ids|]; [|left; by eexists].
  destruct (load_already_processed_rows out) as [processed|];
    [|left; by eexists].
  right. by exists brand_name, ids, processed.
Qed.

Lemma ends_complete_glue e out :
  ends_complete e out ->
  match out with Some _ => output_glued e | None => None end = None.
Proof. by intros [-> | ?]; [|destruct out]. Qed.

(** The trace of [main], whose startup steps write and log nothing. *)
Lemma main_events e out w' r :
  main str_other e out = (w', r) ->
  Forall (fun row => length row = 6) (appended (events w'))
  /\ paced (events w') = true
  /\ length (filter (fun ev => is_sleep ev = true) (events w'))
     = length (appended (events w'))
  /\ length (appended (events w'))
     <= length (filter (fun ev => is_fetching ev = true) (events w'))
     <= length (appended (events w')) + 1
  /\ (r = Ok tt ->
      length (filter (fun ev => is_fetching ev = true) (events w'))
      = length (appended (events w')))
  /\ (ends_complete e out ->
      output_csv w' = written_file out (appended (events w'))).
Proof.
  intros Hmain.
  destruct (main_started e out)
    as [[x Hx] | (b & ids & p & Hread & Hload & Hloop)].
  - rewrite Hx in Hmain. injection Hmain as <- <-. simpl.
    repeat split; try done; lia.
  - rewrite Hloop in Hmain. apply main_loop_trace in Hmain
      as (evs & Hev & _ & _ & Hlen & Hpaced & Hsl & Hfe & _ & Hout).
    simpl in Hev, Hout. rewrite Hev.
    split; [done|]. split; [done|]. split; [done|].
    split; [rewrite Hfe; destruct r; lia|].
    split; [intros ->; rewrite Hfe; lia|].
    intros Hc. by apply Hout, ends_complete_glue.
Qed.

Lemma main_trace e out w' r ids processed :
  main str_other e out = (w', r) ->
  read_product_source_ids (input_csv e) = Ok ids ->
  load_already_processed_rows out = Ok processed ->
  map row_id (appended (events w'))
  `prefix_of` filter (fun id => Some id ∉ processed) ids
  /\ (r = Ok tt ->
      map row_id (appended (events w'))
      = filter (fun id => Some id ∉ processed) ids)
  /\ Forall (event_ok processed 1 ids) (events w').
Proof.
  intros Hmain Hread Hload.
  destruct (main_started e out)
    as [[x Hx] | (b & ids' & p' & Hread' & Hload' & Hloop)].
  - rewrite Hx in Hmain. injection Hmain as <- <-. simpl.
    repeat split; try done. by apply prefix_nil.
  - rewrite Hread in Hread'. rewrite Hload in Hload'.
    injection Hread' as <-. injection Hload' as <-.
    rewrite Hloop in Hmain. apply main_loop_trace in Hmain
      as (evs & Hev & Hpre & Hall & _ & _ & _ & _ & Hok & _).
    simpl in Hev. by rewrite Hev.
Qed.

End DriverProperties.





(** C9. When every identifier of the input file is in the resume set
    computed from the output file, a run leaves the output file as it was;
    and once the startup steps succeed it runs to completion doing nothing
    but skipping each identifier in turn. *)
Theorem rerun_appends_nothing str_other e out ids processed :
  read_product_source_ids (input_csv e) = Ok ids ->
  load_already_processed_rows out = Ok processed ->
  (forall id, id ∈ ids -> Some id ∈ processed) ->
  output_csv (main str_other e out).1 = out
  /\ (forall brand_name,
        String.eqb (BEARER_TOKEN (cfg e)) ""
        || String.eqb (BEARER_TOKEN (cfg e)) "YOUR_BEARER_TOKEN_HERE" = false ->
        get_brand_name (self_response e) (BRAND_ID (cfg e)) = Ok brand_name ->
        main str_other e out
        = ({| output_csv := out; events := skip_events 1 ids |}, Ok tt)).
Proof.
  intros Hread Hload Hall. split.
  - destruct (main_started str_other e out)
      as [[x ->] | (b & ids' & p' & Hread' & Hload' & ->)]; [done|].
    rewrite Hread in Hread'. rewrite Hload in Hload'.
    injection Hread' as <-. injection Hload' as <-.
    by rewrite main_loop_all_processed.
  - intros brand_name Htok Hbrand. unfold main.
    rewrite Htok, Hbrand, Hread, Hload.
    by rewrite main_loop_all_processed.
Qed.


(** * Concrete runs *)

Lemma record_match_rule_witness :
  search_products Sample.override_media "sku-5" PNone PNone
  = Ok (PInt 5, PStr "https://x/p/5")
  /\ (record_matches "sku-5" Sample.override_media ->
      exists pre tag post,
        entries (field "products" Sample.override_media)
        = (pre ++ tag :: post)%list
        /\ Forall (fun x => ~ assoc_matches "sku-5" x) pre
        /\ assoc_matches "sku-5" tag
        /\ PInt 5 = (if Py.is_none PNone then assoc_id tag else PNone)
        /\ PStr "https://x/p/5"
           = (if Py.is_none PNone then assoc_url tag else PNone)).
Proof.
  split; [reflexivity|].
  apply (record_match_rule Sample.override_media "sku-5" PNone PNone).
  reflexivity.
Defined.

Lemma matched_values_witness :
  Forall (fun x => ~ assoc_matches "sku-42" x) [Sample.tag "other" []]
  /\ assoc_matches "sku-42" (Sample.tag "sku-42" Sample.product42)
  /\ scan_products
       [Sample.tag "other" []; Sample.tag "sku-42" Sample.product42]
       "sku-42" PNone PNone
     = Ok (PInt 42, PStr "https://x/p/42")
  /\ PInt 42 = field "id" (field "product" (Sample.tag "sku-42" Sample.product42))
  /\ PStr "https://x/p/42"
     = field "url" (field "product" (Sample.tag "sku-42" Sample.product42)).
Proof.
  assert (H1 : Forall (fun x => ~ assoc_matches "sku-42" x)
                 [Sample.tag "other" []]).
  { constructor; [|constructor].
    intros [H | [H | (ov & Hin & _)]]; try discriminate H.
    by apply elem_of_nil in Hin. }
  assert (H2 : assoc_matches "sku-42" (Sample.tag "sku-42" Sample.product42))
    by (left; reflexivity).
  split; [exact H1 | split; [exact H2 | split; [reflexivity|]]].
  exact (matched_values [Sample.tag "other" []]
           (Sample.tag "sku-42" Sample.product42) [] "sku-42"
           PNone PNone (PInt 42) (PStr "https://x/p/42") H1 H2 eq_refl).
Defined.

(** The fallback is taken for a product id that is present but zero. *)
Lemma zero_id_falls_back :
  assoc_matches "sku-0" Sample.zero_id_tag
  /\ field "id" (nested_product Sample.zero_id_tag) = PInt 0
  /\ scan_products [Sample.zero_id_tag] "sku-0" PNone PNone
     = Ok (PInt 7, PStr "https://x/p/0")
  /\ assoc_id_if_absent Sample.zero_id_tag = PInt 0
  /\ PInt 7 <> assoc_id_if_absent Sample.zero_id_tag.
Proof.
  split; [left; reflexivity|]. repeat split. discriminate.
Qed.

Lemma media_count_is_length_witness :
  extract_product_info Sample.three_records "sku-42"
  = Ok (PInt 42, PStr "https://x/p/42", 3,
        [PStr "https://img/1"; PStr "https://img/2"; PStr "https://img/3"])
  /\ 3 = length Sample.three_records.
Proof.
  split; [reflexivity|].
  apply (proj1 (media_count_is_length Sample.three_records "sku-42")
           (PInt 42) (PStr "https://x/p/42") 3
           [PStr "https://img/1"; PStr "https://img/2"; PStr "https://img/3"]).
  reflexivity.
Defined.

Lemma no_match_result_witness :
  Forall (fun m => ~ record_matches "sku-42" m) Sample.two_images
  /\ Forall (fun m => wf_media m = true) Sample.two_images
  /\ extract_product_info Sample.two_images "sku-42"
     = Ok (PNone, PNone, 2, [PStr "https://img/1"; PStr "https://img/2"]).
Proof.
  assert (H1 : Forall (fun m => ~ record_matches "sku-42" m) Sample.two_images).
  { repeat constructor; intros (tag & Hin & _); by apply elem_of_nil in Hin. }
  assert (H2 : Forall (fun m => wf_media m = true) Sample.two_images)
    by (repeat constructor).
  split; [exact H1 | split; [exact H2 |]].
  exact (proj2 (no_match_result Sample.two_images "sku-42" H1) H2).
Defined.

Lemma early_exit_refines_full_scan_witness :
  extract_product_info_full Fixture.two_matches "sku-42"
  = Ok (PInt 42, PStr "https://x/p/42", 2,
        [PStr "https://img/1"; PStr "https://img/2"])
  /\ extract_product_info Fixture.two_matches "sku-42"
     = Ok (PInt 42, PStr "https://x/p/42", 2,
           [PStr "https://img/1"; PStr "https://img/2"]).
Proof.
  split; [reflexivity|].
  apply (proj1 (early_exit_refines_full_scan Fixture.two_matches "sku-42")).
  reflexivity.
Defined.

(** The two are not the same function: after a match the extractor no
    longer looks at the products of later records, so it returns on a list
    whose later record carries a products value that cannot be iterated,
    where the full scan raises. *)
Lemma full_scan_reads_later_products :
  let items := [Sample.media "https://img/1" [Sample.tag "sku-42" Sample.product42];
                PDict [("products", PInt 5)]] in
  extract_product_info items "sku-42"
  = Ok (PInt 42, PStr "https://x/p/42", 2, [PStr "https://img/1"])
  /\ extract_product_info_full items "sku-42" = Raise TypeError.
Proof. split; reflexivity. Qed.

Lemma fetch_media_total_witness :
  fetch_media_for_product_source_id (fun _ => Response 503 None) "sku-42" = []
  /\ fetch_media_for_product_source_id
       (fun _ => Response 200 (Some (PDict [("error", PStr "no")]))) "sku-42"
     = []
  /\ fetch_media_for_product_source_id
       (fun _ => Response 200 (Some (PList Sample.two_images))) "sku-42"
     = Sample.two_images.
Proof.
  split; [|split].
  - apply (proj1 (proj2 (fetch_media_total (fun _ => Response 503 None) "sku-42"))
             503%Z None eq_refl).
    discriminate.
  - apply (proj1 (proj2 (proj2 (proj2
             (fetch_media_total
                (fun _ => Response 200 (Some (PDict [("error", PStr "no")])))
                "sku-42"))))
             (PDict [("error", PStr "no")]) eq_refl).
    discriminate.
  - apply (proj2 (proj2 (proj2 (proj2
             (fetch_media_total
                (fun _ => Response 200 (Some (PList Sample.two_images)))
                "sku-42"))))).
    reflexivity.
Defined.

Lemma display_link_rule_witness :
  Py.truthy (PStr "acme") = true
  /\ Py.truthy (PInt 42) = true
  /\ build_dash_library_link Sample.no_str (PStr "acme") (PInt 42)
     = "https://app.dashhudson.com/acme/library/products?d=product%7CproductId%3A42".
Proof.
  split; [reflexivity | split; [reflexivity|]].
  apply (proj1 (display_link_rule Sample.no_str (PStr "acme") (PInt 42)));
    reflexivity.
Defined.

(** An internal id that is present but zero gives the empty link. *)
Lemma zero_id_gives_no_link :
  Py.is_none (PStr "acme") = false
  /\ Py.is_none (PInt 0) = false
  /\ build_dash_library_link Sample.no_str (PStr "acme") (PInt 0) = "".
Proof. repeat split. Qed.

Lemma read_product_source_ids_witness :
  "product_source_id" ∈ ["name"; "product_source_id"]
  /\ read_product_source_ids
       (Some [["name"; "product_source_id"];
              ["shirt"; "  sku-1 "]; []; ["blank"; "   "]; ["short"];
              ["hat"; "sku-2"]])
     = Ok ["sku-1"; "sku-2"].
Proof.
  assert (H : "product_source_id" ∈ ["name"; "product_source_id"])
    by (right; left).
  split; [exact H|].
  destruct (read_product_source_ids_spec ["name"; "product_source_id"]
              [["shirt"; "  sku-1 "]; []; ["blank"; "   "]; ["short"];
               ["hat"; "sku-2"]] H) as (values & -> & -> & _).
  vm_compute. reflexivity.
Defined.

Lemma rerun_appends_nothing_witness :
  let e := Sample.offline [["product_source_id"]; ["sku-1"]; ["sku-2"]] in
  let out := Some [fieldnames; Sample.written "sku-1"; Sample.written "sku-2"] in
  read_product_source_ids (input_csv e) = Ok ["sku-1"; "sku-2"]
  /\ main Sample.no_str e out
     = ({| output_csv := out;
           events := [Skipping 1 "sku-1"; Skipping 2 "sku-2"] |}, Ok tt).
Proof.
  intros e out.
  assert (Hread : read_product_source_ids (input_csv e) = Ok ["sku-1"; "sku-2"])
    by (vm_compute; reflexivity).
  split; [exact Hread|].
  destruct (load_already_processed_rows_total out) as [processed Hload].
  refine (proj2 (rerun_appends_nothing Sample.no_str e out
                   ["sku-1"; "sku-2"] processed Hread Hload _)
            "acme" eq_refl eq_refl).
  intros id Hin.
  apply (resume_set_of_script_file _ _ _ Hload).
  apply elem_of_cons in Hin as [-> | Hin].
  - exists (Sample.written "sku-1"). split; [left | reflexivity].
  - apply elem_of_cons in Hin as [-> | Hin]; [|by apply elem_of_nil in Hin].
    exists (Sample.written "sku-2"). split; [right; left | reflexivity].
Defined.



(** The content of the file matters beyond its rows when it stops inside a
    record.  On a file whose last line [sku-1] is unterminated, the row
    written for the identifier [2] continues that line and reads back as a
    second row of [sku-12], which the run had skipped. *)
Remark unterminated_line_is_continued :
  read_product_source_ids (input_csv Fixture.glued) = Ok ["sku-12"; "2"]
  /\ rows_for "sku-12" (Some Fixture.unterminated) = 1
  /\ main Sample.no_str Fixture.glued (Some Fixture.unterminated)
     = ({| output_csv :=
             Some [fieldnames; Sample.written "sku-12"; Sample.written "sku-12"];
           events := [Skipping 1 "sku-12"; Fetching 2 "2";
                      Appending (Sample.written "2"); Sleep] |}, Ok tt)
  /\ rows_for "sku-12"
       (output_csv (main Sample.no_str Fixture.glued
                      (Some Fixture.unterminated)).1) = 2.
Proof. repeat split; vm_compute; reflexivity. Qed.

(** * Further properties *)

(** ** The extractor *)

Lemma assoc_matchesb_spec target tag :
  assoc_matchesb target tag = true <-> assoc_matches target tag.
Proof.
  unfold assoc_matchesb, assoc_matches.
  rewrite !orb_true_iff, !eq_str_true, existsb_exists.
  split.
  - intros [[? | ?] | (ov & Hin & Hov)]; [by left | by right; left |].
    right. right. exists ov. rewrite list_elem_of_In, <- eq_str_true. done.
  - intros [? | [? | (ov & Hin & Hov)]]; [by left; left | by left; right |].
    right. exists ov. rewrite <- list_elem_of_In, eq_str_true. done.
Qed.

Lemma find_first_match target pre tag post :
  Forall (fun x => ~ assoc_matches target x) pre ->
  assoc_matches target tag ->
  List.find (assoc_matchesb target) (pre ++ tag :: post) = Some tag.
Proof.
  intros Hpre Hyes. induction Hpre as [|x pre Hx _ IH]; simpl.
  - apply assoc_matchesb_spec in Hyes. by rewrite Hyes.
  - destruct (assoc_matchesb target x) eqn:Hb; [|done].
    by apply assoc_matchesb_spec in Hb.
Qed.

Lemma find_no_match target tags :
  Forall (fun x => ~ assoc_matches target x) tags ->
  List.find (assoc_matchesb target) tags = None.
Proof.
  induction 1 as [|x tags Hx _ IH]; simpl; [done|].
  destruct (assoc_matchesb target x) eqn:Hb; [|done].
  by apply assoc_matchesb_spec in Hb.
Qed.

Lemma is_none_true v : Py.is_none v = true -> v = PNone.
Proof. by destruct v. Qed.

Lemma search_products_first_match media target d u d' u' :
  search_products media target d u = Ok (d', u') ->
  d' = (if Py.is_none d
        then from_option assoc_id PNone (first_match target media) else d)
  /\ u' = (if Py.is_none u
          then from_option assoc_url PNone (first_match target media) else u).
Proof.
  intros H. apply search_products_entries in H. unfold first_match.
  apply scan_products_spec in H
    as [(pre & tag & post & -> & Hpre & Hyes & -> & ->) | (Hall & -> & ->)].
  - by rewrite (find_first_match _ _ _ _ Hpre Hyes).
  - rewrite (find_no_match _ _ Hall). simpl. split.
    + destruct (Py.is_none d) eqn:Hd; [by apply is_none_true | done].
    + destruct (Py.is_none u) eqn:Hu; [by apply is_none_true | done].
Qed.

Lemma extract_loop_first_set media_items target d u urls d' u' urls' :
  extract_loop media_items target d u urls = Ok (d', u', urls') ->
  d' = first_set
         (d :: map (fun m => from_option assoc_id PNone (first_match target m))
                 media_items)
  /\ u' = first_set
           (u :: map (fun m => from_option assoc_url PNone (first_match target m))
                   media_items).
Proof.
  revert d u urls.
  induction media_items as [|media rest IH]; intros d u urls H.
  - simpl in H. injection H as <- <- <-. simpl.
    split; [by destruct d | by destruct u].
  - cbn [extract_loop] in H. bind_ok H.
    destruct (negb (Py.is_none d) && negb (Py.is_none u)) eqn:B.
    + apply andb_true_iff in B as [Bd Bu]. apply negb_true_iff in Bd, Bu.
      destruct (IH _ _ _ H) as [Hd Hu]. rewrite Hd, Hu. simpl.
      by rewrite Bd, Bu.
    + bind_ok H. destruct a0 as [d1 u1].
      apply search_products_first_match in E0 as [Hd1 Hu1].
      destruct (IH _ _ _ H) as [Hd Hu]. rewrite Hd, Hu, Hd1, Hu1.
      split; [by destruct d | by destruct u].
Qed.

Lemma first_set_elem vs :
  first_set vs <> PNone -> first_set vs ∈ vs.
Proof.
  induction vs as [|v vs IH]; simpl; [done|].
  destruct (Py.is_none v); intros H; [right; by apply IH | left].
Qed.

Lemma first_match_matches target media tag :
  first_match target media = Some tag ->
  tag ∈ entries (field "products" media) /\ assoc_matches target tag.
Proof.
  unfold first_match. intros H. apply find_some in H as [Hin Hb].
  split; [by apply list_elem_of_In | by apply assoc_matchesb_spec].
Qed.

Lemma offered_value_matches (f : value -> value) target media_items v :
  v <> PNone ->
  v ∈ map (fun m => from_option f PNone (first_match target m)) media_items ->
  exists media tag,
    media ∈ media_items
    /\ tag ∈ entries (field "products" media)
    /\ assoc_matches target tag
    /\ v = f tag.
Proof.
  intros Hv (media & -> & Hin)%list_elem_of_fmap.
  destruct (first_match target media) as [tag|] eqn:Hm; [|done].
  apply first_match_matches in Hm as [Htag Hyes].
  by exists media, tag.
Qed.

(** X1. The id the extractor returns is the first value that is not None
    among those offered, record by record, by the first matching
    association of each record (the product's id or else the association's
    product_id); the URL is chosen the same way and independently, so the
    two may come from different records.  A returned id or URL therefore
    always comes from an association of the list that matches the target. *)
Theorem extract_fields_first_offered media_items target d u c urls :
  extract_product_info media_items target = Ok (d, u, c, urls) ->
  d = first_set
        (map (fun m => from_option assoc_id PNone (first_match target m))
             media_items)
  /\ u = first_set
          (map (fun m => from_option assoc_url PNone (first_match target m))
               media_items)
  /\ (d <> PNone ->
      exists media tag,
        media ∈ media_items /\ tag ∈ entries (field "products" media)
        /\ assoc_matches target tag /\ d = assoc_id tag)
  /\ (u <> PNone ->
      exists media tag,
        media ∈ media_items /\ tag ∈ entries (field "products" media)
        /\ assoc_matches target tag /\ u = assoc_url tag).
Proof.
  unfold extract_product_info. intros H. bind_ok H.
  destruct a as [[d0 u0] urls0]. injection H as <- <- _ _.
  apply extract_loop_first_set in E as [Hd Hu]. simpl in Hd, Hu.
  split; [done | split; [done | split]].
  - intros Hne. apply offered_value_matches; [done|].
    rewrite Hd in Hne |- *. by apply first_set_elem.
  - intros Hne. apply offered_value_matches; [done|].
    rewrite Hu in Hne |- *. by apply first_set_elem.
Qed.

(** X2. Whatever the extractor returns, its image URL list is the list of
    the truthy image_sizes.original.url values of the records in record
    order: it never has more entries than the media count and never holds
    an empty value. *)
Theorem extract_image_urls media_items target d u c urls :
  extract_product_info media_items target = Ok (d, u, c, urls) ->
  urls = image_urls media_items
  /\ length urls <= c
  /\ Forall (fun url => Py.truthy url = true) urls.
Proof.
  unfold extract_product_info. intros H. bind_ok H.
  destruct a as [[d0 u0] urls0]. injection H as _ _ <- <-.
  apply extract_loop_urls in E as ->. simpl. split; [done|].
  unfold image_urls. split.
  - etrans; [apply length_filter|]. by rewrite length_map.
  - apply Forall_forall. by intros url [Ht _]%list_elem_of_filter.
Qed.

(** X3. The search of a record stops at the first matching association:
    the associations after it are not looked at, so the outcome is the
    same whatever follows, well shaped or not. *)
Theorem scan_stops_at_first_match pre tag product post post' target d u :
  tag_product tag = Ok product ->
  tag_matches tag product target = Ok true ->
  scan_products (pre ++ tag :: post) target d u
  = scan_products (pre ++ tag :: post') target d u.
Proof.
  intros Hp Hm. induction pre as [|x pre IH]; simpl.
  - by rewrite Hp; simpl; rewrite Hm.
  - destruct (tag_product x) as [px|]; simpl; [|done].
    destruct (tag_matches x px target) as [[|]|]; simpl; done.
Qed.

(** ** Failures of the extractor *)

(** X4. The extractor fails only on a list that holds an ill-shaped
    record, and then only with AttributeError or TypeError. *)
Theorem extract_fails_on_shape_only media_items target x :
  extract_product_info media_items target = Raise x ->
  shape_error x /\ ~ Forall (fun m => wf_media m = true) media_items.
Proof.
  intros H. split.
  - unfold extract_product_info in H.
    bind_raise H; [by destruct a as [[? ?] ?] | by eapply extract_loop_raise].
  - intros Hwf.
    destruct (extract_product_info_wf media_items target Hwf)
      as (d & u & urls & Hok).
    congruence.
Qed.

(** ** The account resolver *)

Lemma find_brand_first items brand_id name :
  find_brand items brand_id = Ok name ->
  exists pre obj post,
    items = (pre ++ (name, obj) :: post)%list
    /\ eq_int (field "id" obj) brand_id = true
    /\ Forall (fun kv => eq_int (field "id" kv.2) brand_id = false) pre.
Proof.
  induction items as [|[n obj] rest IH]; simpl; [done|].
  intros H. bind_ok H. apply get_field in E. subst a.
  destruct (eq_int (field "id" obj) brand_id) eqn:Hid.
  - injection H as ->. by exists [], obj, rest.
  - destruct (IH H) as (pre & obj' & post & -> & Hobj & Hpre).
    exists ((n, obj) :: pre), obj', post. repeat split; [done|].
    by constructor.
Qed.

Lemma find_brand_raise items brand_id x :
  find_brand items brand_id = Raise x ->
  x = SystemExit 1 \/ x = AttributeError.
Proof.
  induction items as [|[n obj] rest IH]; simpl.
  - intros [= <-]. by left.
  - intros H. bind_raise H; [|right; by eapply get_raise].
    destruct (eq_int a brand_id); [done | by apply IH].
Qed.


(** X5. When the account resolver returns a name, the call came back with
    status 200 and a parsed body, and the name is the first key of the
    body's brands mapping, in the mapping's order, whose object has the
    account id as its id. *)
Theorem get_brand_name_first_brand self brand_id name :
  get_brand_name self brand_id = Ok name ->
  exists data brands pre obj post,
    self = Response 200 (Some data)
    /\ Py.or_ (field "brands" data) empty_dict = PDict brands
    /\ brands = (pre ++ (name, obj) :: post)%list
    /\ eq_int (field "id" obj) brand_id = true
    /\ Forall (fun kv => eq_int (field "id" kv.2) brand_id = false) pre.
Proof.
  unfold get_brand_name. destruct self as [|status body]; [done|].
  destruct (Z.eqb_spec status 200) as [-> | Hne]; simpl; [|done].
  destruct body as [data|]; [|done]. intros H. bind_ok H.
  apply get_field in E. subst a.
  destruct (Py.or_ (field "brands" data) empty_dict) as [| | | | | |brands]
    eqn:Hb; try done.
  apply find_brand_first in H as (pre & obj & post & -> & Hobj & Hpre).
  by exists data, (pre ++ (name, obj) :: post)%list, pre, obj, post.
Qed.

Lemma find_brand_attribute_error items brand_id :
  find_brand items brand_id = Raise AttributeError
  <-> exists pre name obj post,
        items = (pre ++ (name, obj) :: post)%list
        /\ Forall (fun kv => is_dict kv.2 = true
                             /\ eq_int (field "id" kv.2) brand_id = false) pre
        /\ is_dict obj = false.
Proof.
  induction items as [|[n obj] rest IH]; simpl.
  - split; [done|]. intros (pre & name & o & post & Heq & _). by destruct pre.
  - destruct (is_dict obj) eqn:Hd.
    + rewrite (get_dict _ _ Hd). simpl.
      destruct (eq_int (field "id" obj) brand_id) eqn:Hid.
      * split; [done|]. intros (pre & name & o & post & Heq & Hpre & Ho).
        destruct pre as [|kv pre]; simplify_eq/=; [congruence|].
        apply Forall_cons in Hpre as [[_ Hno] _]. simpl in Hno. congruence.
      * rewrite IH. split; intros (pre & name & o & post & Heq & Hpre & Ho).
        -- exists ((n, obj) :: pre), name, o, post. subst rest.
           split; [done|]. split; [by constructor | done].
        -- destruct pre as [|kv pre]; simplify_eq/=; [congruence|].
           apply Forall_cons in Hpre as [_ Hpre]. by exists pre, name, o, post.
    + assert (Py.get "id" obj = Raise AttributeError) as ->
        by (by destruct obj).
      simpl. split; [intros _ | done]. by exists [], n, obj, rest.
Qed.

Lemma find_brand_exit items brand_id :
  find_brand items brand_id = Raise (SystemExit 1)
  <-> Forall (fun kv => is_dict kv.2 = true
                        /\ eq_int (field "id" kv.2) brand_id = false) items.
Proof.
  induction items as [|[n obj] rest IH]; simpl; [done|].
  rewrite Forall_cons. simpl.
  destruct (is_dict obj) eqn:Hd.
  - rewrite (get_dict _ _ Hd). simpl.
    destruct (eq_int (field "id" obj) brand_id) eqn:Hid.
    + split; [done | by intros [[_ ?] _]].
    + rewrite IH. tauto.
  - assert (Py.get "id" obj = Raise AttributeError) as ->
      by (by destruct obj).
    simpl. split; [done | by intros [[? _] _]].
Qed.

Lemma get_brand_name_raise self brand_id x :
  get_brand_name self brand_id = Raise x ->
  x = SystemExit 1 \/ x = AttributeError.
Proof.
  unfold get_brand_name. destruct self as [|status body].
  { intros [= <-]. by left. }
  destruct (negb _); [intros [= <-]; by left|].
  destruct body as [data|]; [|intros [= <-]; by left].
  intros H. bind_raise H; [|right; by eapply get_raise].
  destruct (Py.or_ a empty_dict); try (injection H as <-; by right).
  by eapply find_brand_raise.
Qed.

(** X6. The account resolver fails with exit status 1 when the request
    raises, when the status is not 200 and when the body of a 200 response
    does not parse.  On a parsed 200 body it fails with AttributeError
    exactly when the body is not an object, or its brands value is truthy
    and not an object, or some value of the brands object is not an object
    and no value before it is an object with the account id; it fails with
    exit status 1 exactly when the body and all values of its brands object
    are objects and none has the account id.  It fails in no other way. *)
Theorem get_brand_name_failures brand_id :
  get_brand_name RequestError brand_id = Raise (SystemExit 1)
  /\ (forall status body,
        status <> 200%Z ->
        get_brand_name (Response status body) brand_id = Raise (SystemExit 1))
  /\ get_brand_name (Response 200 None) brand_id = Raise (SystemExit 1)
  /\ (forall data,
        get_brand_name (Response 200 (Some data)) brand_id
        = Raise AttributeError
        <-> (is_dict data = false
             \/ is_dict (Py.or_ (field "brands" data) empty_dict) = false
             \/ (exists pre name obj post,
                   Py.or_ (field "brands" data) empty_dict
                   = PDict (pre ++ (name, obj) :: post)
                   /\ Forall (fun kv =>
                                is_dict kv.2 = true
                                /\ eq_int (field "id" kv.2) brand_id = false)
                        pre
                   /\ is_dict obj = false)))
  /\ (forall data,
        get_brand_name (Response 200 (Some data)) brand_id
        = Raise (SystemExit 1)
        <-> (is_dict data = true
             /\ exists brands,
                  Py.or_ (field "brands" data) empty_dict = PDict brands
                  /\ Forall (fun kv =>
                               is_dict kv.2 = true
                               /\ eq_int (field "id" kv.2) brand_id = false)
                       brands))
  /\ (forall self x,
        get_brand_name self brand_id = Raise x ->
        x = SystemExit 1 \/ x = AttributeError).
Proof.
  split; [done|]. split.
  { intros status body Hne. unfold get_brand_name.
    by destruct (Z.eqb_spec status 200). }
  split; [done|]. split; [|split].
  - intros data. unfold get_brand_name. simpl.
    destruct (is_dict data) eqn:Hd.
    + rewrite (get_dict _ _ Hd). simpl.
      destruct (Py.or_ (field "brands" data) empty_dict) as [| | | | | |brands]
        eqn:Hb; simpl;
        try (split; [intros _; right; by left | done]).
      rewrite find_brand_attribute_error. split.
      * intros (pre & name & obj & post & -> & Hpre & Ho).
        right. right. by exists pre, name, obj, post.
      * intros [? | [? | (pre & name & obj & post & Heq & Hpre & Ho)]];
          [done | done |].
        injection Heq as ->. by exists pre, name, obj, post.
    + assert (Py.get "brands" data = Raise AttributeError) as ->
        by (by destruct data).
      simpl. split; [intros _; by left | done].
  - intros data. unfold get_brand_name. simpl.
    destruct (is_dict data) eqn:Hd.
    + rewrite (get_dict _ _ Hd). simpl.
      destruct (Py.or_ (field "brands" data) empty_dict) as [| | | | | |brands]
        eqn:Hb; simpl;
        try (split; [done | by intros (_ & brands & ? & _)]).
      rewrite find_brand_exit. split.
      * intros Hall. split; [done|]. by exists brands.
      * intros (_ & brands' & Heq & Hall). by injection Heq as ->.
    + assert (Py.get "brands" data = Raise AttributeError) as ->
        by (by destruct data).
      simpl. split; [done | by intros [? _]].
  - intros self x. apply get_brand_name_raise.
Qed.

(** ** The resume tracker *)

(** X8. Under a header without repeated names that has product_id in
    position i, the resume set holds exactly the i-th cell of every
    non-blank data row, and None for each such row that is too short to
    have one. *)
Theorem resume_set_is_column header rows i processed :
  NoDup header ->
  header !! i = Some "product_id" ->
  load_already_processed_rows (Some (header :: rows)) = Ok processed ->
  forall v,
    v ∈ processed <-> exists row, row ∈ rows /\ row <> [] /\ v = row !! i.
Proof.
  intros Hnd Hi. unfold load_already_processed_rows.
  assert (Hcol : "product_id" ∈ header) by (by eapply list_elem_of_lookup_2).
  rewrite bool_decide_true by done.
  destruct (add_processed_spec (DictReader.rows (header :: rows)) ∅
              (rows_have_fields (header :: rows) "product_id" Hcol))
    as (p & -> & Hp).
  intros [= <-] v. rewrite Hp. simpl. split.
  - intros [Hempty | (d & Hin & Hd)]; [by apply not_elem_of_empty in Hempty|].
    apply list_elem_of_fmap in Hin
      as (row & -> & [Hne Hin]%list_elem_of_filter).
    rewrite (row_dict_lookup header row "product_id" i Hnd Hi) in Hd.
    injection Hd as <-. by exists row.
  - intros (row & Hin & Hne & ->). right.
    exists (DictReader.row_dict header row). split.
    + apply list_elem_of_fmap. exists row. split; [done|].
      by apply list_elem_of_filter.
    + by apply row_dict_lookup.
Qed.

(** ** The driver *)




(** X11. A media lookup is made only for an identifier that is not in the
    resume set, and an identifier is skipped only when it is in it; either
    event carries the 1-based position of the identifier in the input. *)
Theorem lookups_only_for_unprocessed str_other e out w' r ids processed :
  main str_other e out = (w', r) ->
  read_product_source_ids (input_csv e) = Ok ids ->
  load_already_processed_rows out = Ok processed ->
  forall i id,
    (Fetching i id ∈ events w' ->
     (Some id ∉ processed) /\ 1 <= i /\ ids !! (i - 1) = Some id)
    /\ (Skipping i id ∈ events w' ->
        (Some id ∈ processed) /\ 1 <= i /\ ids !! (i - 1) = Some id).
Proof.
  intros Hmain Hread Hload i id.
  destruct (main_trace str_other e out w' r ids processed Hmain Hread Hload)
    as (_ & _ & Hok).
  rewrite Forall_forall in Hok.
  split; intros Hin; by apply Hok in Hin.
Qed.

Section FailureProperties.

Variable str_other : value -> string.

Lemma make_row_empty brand_name id :
  exists row,
    make_row str_other brand_name [] id = Ok row
    /\ writerow str_other row = empty_row id.
Proof.
  unfold make_row. simpl. eexists. split; [reflexivity|].
  unfold writerow, fieldnames, empty_row, build_dash_library_link. simpl.
  rewrite orb_true_r.
  repeat (rewrite lookup_insert_eq || rewrite lookup_insert_ne by done).
  reflexivity.
Qed.

Lemma main_loop_offline e brand_name processed glue ids :
  (forall idx id,
      fetch_media_for_product_source_id (media_response e idx) id = []) ->
  forall idx w,
    exists w',
      main_loop str_other e brand_name processed glue idx ids w = (w', Ok tt)
      /\ appended (events w')
         = (appended (events w)
            ++ map empty_row (filter (fun id => Some id ∉ processed) ids))%list.
Proof.
  intros Hoff. induction ids as [|id rest IH]; intros idx w; simpl.
  - exists w. by rewrite app_nil_r.
  - rewrite filter_cons. case_bool_decide as Hin.
    + rewrite decide_False by (intros Hn; by apply Hn).
      destruct (IH (S idx) (log (Skipping idx id) w)) as (w' & Hrun & Hout).
      exists w'. split; [done|]. rewrite Hout. simpl.
      by rewrite appended_app, app_nil_r.
    + rewrite decide_True by done. rewrite Hoff.
      destruct (make_row_empty brand_name id) as (row & -> & Hrow).
      match goal with
      | |- context [main_loop _ _ _ _ _ _ _ ?w1] =>
          destruct (IH (S idx) w1) as (w' & Hrun & Hout)
      end.
      exists w'. split; [done|]. rewrite Hout. simpl.
      rewrite !appended_app, Hrow. simpl.
      by rewrite app_nil_r, <- !app_assoc.
Qed.

Lemma join_ok sep l :
  Forall (fun v => is_str v = true) l -> exists s, Py.join sep l = Ok s.
Proof.
  induction 1 as [|v l Hv _ [s IH]]; simpl; [by eexists|].
  destruct v; try done. destruct l; [by eexists|].
  rewrite IH. simpl. by eexists.
Qed.

Lemma join_ok_inv sep l s :
  Py.join sep l = Ok s -> Forall (fun v => is_str v = true) l.
Proof.
  revert s. induction l as [|v l IH]; intros s; simpl; [done|].
  destruct v; try done. destruct l as [|v' l']; [by repeat constructor|].
  intros H. bind_ok H. constructor; [done | by eapply IH].
Qed.

Lemma extract_urls_eq media_items target d u c urls :
  extract_product_info media_items target = Ok (d, u, c, urls) ->
  urls = image_urls media_items.
Proof.
  unfold extract_product_info. intros H. bind_ok H.
  destruct a as [[d0 u0] urls0]. injection H as _ _ _ <-.
  by apply extract_loop_urls in E.
Qed.

Lemma make_row_ok brand_name media_items id :
  Forall (fun m => wf_media m = true) media_items ->
  Forall (fun v => is_str v = true) (image_urls media_items) ->
  exists row, make_row str_other brand_name media_items id = Ok row.
Proof.
  intros Hwf Hstr. unfold make_row.
  destruct (extract_product_info_wf media_items id Hwf)
    as (d & u & urls & Hex).
  rewrite Hex. simpl. apply extract_urls_eq in Hex as ->.
  destruct (join_ok "; " _ Hstr) as [s ->]. simpl. by eexists.
Qed.

Lemma make_row_raise brand_name media_items id x :
  make_row str_other brand_name media_items id = Raise x -> shape_error x.
Proof.
  unfold make_row. intros H. bind_raise H.
  - destruct a as [[[d u] c] urls]. bind_raise H; [done|].
    right. by eapply join_raise.
  - unfold extract_product_info in E.
    bind_raise E; [by destruct a as [[? ?] ?] | by eapply extract_loop_raise].
Qed.

Lemma make_row_cells brand_name media_items id row :
  make_row str_other brand_name media_items id = Ok row ->
  exists d u urls joined,
    extract_product_info media_items id
    = Ok (d, u, length media_items, urls)
    /\ Py.join "; " urls = Ok joined
    /\ writerow str_other row
       = [id;
          cell str_other (if Py.is_none d then PStr "" else d);
          build_dash_library_link str_other (PStr brand_name) d;
          cell str_other (Py.or_ u (PStr ""));
          pretty (Z.of_nat (length media_items));
          joined].
Proof.
  unfold make_row. intros H. bind_ok H. destruct a as [[[d u] c] urls].
  bind_ok H. injection H as <-.
  assert (c = length media_items) as ->.
  { unfold extract_product_info in E. bind_ok E.
    destruct a0 as [[? ?] ?]. by injection E as _ _ <- _. }
  exists d, u, urls, a. split; [done|]. split; [done|].
  unfold writerow, fieldnames. simpl.
  repeat (rewrite lookup_insert_eq || rewrite lookup_insert_ne by done).
  reflexivity.
Qed.

End FailureProperties.

(** X12. Failed media lookups never stop a run.  When every lookup comes
    back empty (request error, status other than 200, unparseable or
    non-array body) and the startup steps succeed, the run completes and
    hands the row writer, for each identifier outside the resume set in
    input order, the row holding the identifier, three empty cells, the
    count 0 and an empty image list; when the output file is absent or its
    bytes end where a record ends, these rows are what the run adds to the
    file. *)
Theorem failed_lookups_give_empty_rows str_other e out brand_name ids processed :
  String.eqb (BEARER_TOKEN (cfg e)) ""
  || String.eqb (BEARER_TOKEN (cfg e)) "YOUR_BEARER_TOKEN_HERE" = false ->
  get_brand_name (self_response e) (BRAND_ID (cfg e)) = Ok brand_name ->
  read_product_source_ids (input_csv e) = Ok ids ->
  load_already_processed_rows out = Ok processed ->
  (forall idx id,
      fetch_media_for_product_source_id (media_response e idx) id = []) ->
  exists w',
    main str_other e out = (w', Ok tt)
    /\ appended (events w')
       = map empty_row (filter (fun id => Some id ∉ processed) ids)
    /\ (ends_complete e out ->
        output_csv w'
        = written_file out
            (map empty_row (filter (fun id => Some id ∉ processed) ids))).
Proof.
  intros Htok Hbrand Hread Hload Hoff.
  assert (exists w',
    main str_other e out = (w', Ok tt)
    /\ appended (events w')
       = map empty_row (filter (fun id => Some id ∉ processed) ids))
    as (w' & Hmain & Hrows).
  { unfold main. rewrite Htok, Hbrand, Hread, Hload.
    apply (main_loop_offline str_other e brand_name processed _ ids Hoff 1
             {| output_csv := out; events := [] |}). }
  exists w'. split; [done|]. split; [done|]. intros Hc.
  destruct (main_events _ _ _ _ _ Hmain) as (_ & _ & _ & _ & _ & Hout).
  by rewrite (Hout Hc), Hrows.
Qed.

(** X13. The evaluation of a row (the extractor, the display link and the
    join of the image URLs) returns whenever the fetched records are
    well-shaped and their image URLs are strings.  The row it returns has
    the identifier as its first cell and the number of records as its
    count, and its last cell is the join of the image URLs, which are then
    all strings.  When it fails, it fails with AttributeError or TypeError,
    and a record is ill-shaped or an image URL is not a string. *)
Theorem row_evaluation str_other brand_name media_items id :
  (Forall (fun m => wf_media m = true) media_items ->
   Forall (fun v => is_str v = true) (image_urls media_items) ->
   exists row, make_row str_other brand_name media_items id = Ok row)
  /\ (forall row,
        make_row str_other brand_name media_items id = Ok row ->
        Forall (fun v => is_str v = true) (image_urls media_items)
        /\ exists dash_id link url joined,
             Py.join "; " (image_urls media_items) = Ok joined
             /\ writerow str_other row
                = [id; dash_id; link; url;
                   pretty (Z.of_nat (length media_items)); joined])
  /\ (forall x,
        make_row str_other brand_name media_items id = Raise x ->
        shape_error x
        /\ ~ (Forall (fun m => wf_media m = true) media_items
              /\ Forall (fun v => is_str v = true) (image_urls media_items))).
Proof.
  split; [apply make_row_ok|]. split.
  - intros row Hrow.
    destruct (make_row_cells _ _ _ _ _ Hrow)
      as (d & u & urls & joined & Hex & Hjoin & Hcells).
    apply extract_urls_eq in Hex as ->.
    split; [by eapply join_ok_inv|].
    rewrite Hcells. by repeat eexists.
  - intros x Hx. split; [by eapply make_row_raise|].
    intros [Hwf Hstr].
    destruct (make_row_ok str_other brand_name media_items id Hwf Hstr)
      as [row Hrow].
    congruence.
Qed.

(** ** Resuming *)

Lemma row_id_head row id : id <> "" -> row_id row = id -> head row = Some id.
Proof. unfold row_id. destruct (head row); simpl; congruence. Qed.

Lemma script_file_written out new :
  script_file out ->
  (written_file out new = out /\ new = [])
  \/ (out = None
      /\ written_file out new = Some (fieldnames :: [] ++ new)%list)
  \/ (exists rows,
        out = Some (fieldnames :: rows)
        /\ written_file out new = Some (fieldnames :: rows ++ new)%list).
Proof.
  unfold written_file. destruct new as [|row new]; [by left|].
  intros [-> | [rows ->]]; right; [by left | right; by exists rows].
Qed.

Lemma resume_after_rows out new processed processed' :
  script_file out ->
  load_already_processed_rows out = Ok processed ->
  load_already_processed_rows (written_file out new) = Ok processed' ->
  script_file (written_file out new)
  /\ (forall id, Some id ∈ processed -> Some id ∈ processed')
  /\ (forall id, id <> "" -> id ∈ map row_id new -> Some id ∈ processed').
Proof.
  intros Hscript Hload Hload'.
  destruct (script_file_written out new Hscript)
    as [[Heq ->] | [(-> & Heq) | (rows & -> & Heq)]];
    rewrite Heq in Hload' |- *.
  - rewrite Hload in Hload'. injection Hload' as <-.
    split; [done|]. split; [done|]. by intros id _ Hin%elem_of_nil.
  - injection Hload as <-. split; [right; by eexists|].
    split; [by intros id Hin%not_elem_of_empty|].
    intros id Hne (row & Hid & Hin)%list_elem_of_fmap.
    apply (resume_set_of_script_file _ _ _ Hload'). exists row.
    split; [done | by apply row_id_head].
  - split; [right; by eexists|]. split.
    + intros id Hin.
      apply (resume_set_of_script_file _ _ _ Hload) in Hin
        as (row & Hrow & Hhead).
      apply (resume_set_of_script_file _ _ _ Hload'). exists row.
      split; [apply elem_of_app; by left | done].
    + intros id Hne (row & Hid & Hin)%list_elem_of_fmap.
      apply (resume_set_of_script_file _ _ _ Hload'). exists row.
      split; [apply elem_of_app; by right | by apply row_id_head].
Qed.

Lemma rows_for_positive id out :
  0 < rows_for id out ->
  exists row, row ∈ tail (default [] out) /\ row_id row = id.
Proof.
  unfold rows_for. destruct (filter _ _) as [|row rest] eqn:Hf; simpl; [lia|].
  intros _. exists row.
  assert (row ∈ filter (fun row => row_id row = id) (tail (default [] out)))
    as [Hid Hin]%list_elem_of_filter by (rewrite Hf; left).
  done.
Qed.

(** X15. Progress is never lost.  Take a run, however it ended, on an
    output file that was absent, or that begins with the script's header
    and whose bytes end where a record ends, and let the resume tracker
    read the file the run leaves.  That file still begins with the header
    (or is still absent), every identifier of the old resume set is in the
    new resume set, and so is every input identifier that has a row in the
    new file. *)
Theorem resume_set_grows str_other e out w' r ids processed processed' :
  main str_other e out = (w', r) ->
  ends_complete e out ->
  script_file out ->
  read_product_source_ids (input_csv e) = Ok ids ->
  load_already_processed_rows out = Ok processed ->
  load_already_processed_rows (output_csv w') = Ok processed' ->
  script_file (output_csv w')
  /\ (forall id, Some id ∈ processed -> Some id ∈ processed')
  /\ (forall id, id ∈ ids ->
        0 < rows_for id (output_csv w') -> Some id ∈ processed').
Proof.
  intros Hmain Hc Hscript Hread Hload Hload'.
  destruct (main_events _ _ _ _ _ Hmain) as (_ & _ & _ & _ & _ & Hout).
  specialize (Hout Hc). rewrite Hout in Hload' |- *.
  destruct (resume_after_rows out _ processed processed'
              Hscript Hload Hload') as (Hscript' & Hold & Hnew).
  split; [done|]. split; [done|].
  intros id Hin (row & Hrow & Hid)%rows_for_positive.
  pose proof (read_ids_nonempty _ _ Hread) as Hne.
  rewrite Forall_forall in Hne. specialize (Hne id Hin).
  destruct Hscript' as [Hnone | [rows Hrows]].
  - rewrite Hnone in Hrow. by apply elem_of_nil in Hrow.
  - rewrite Hrows in Hrow, Hload'. simpl in Hrow.
    apply (resume_set_of_script_file _ _ _ Hload'). exists row.
    split; [done | by apply row_id_head].
Qed.

(** X16. Running twice is running once.  Take a run that completed on an
    output file that was absent, or that begins with the script's header
    and whose bytes end where a record ends.  A second run over the same
    input file whose startup steps succeed, the resume tracker reading the
    file the first run left, skips every identifier, whatever the network
    answers, and leaves the output file as the first run left it. *)
Theorem second_run_changes_nothing str_other e out w' ids e2 brand_name
    processed' :
  main str_other e out = (w', Ok tt) ->
  ends_complete e out ->
  script_file out ->
  read_product_source_ids (input_csv e) = Ok ids ->
  input_csv e2 = input_csv e ->
  String.eqb (BEARER_TOKEN (cfg e2)) ""
  || String.eqb (BEARER_TOKEN (cfg e2)) "YOUR_BEARER_TOKEN_HERE" = false ->
  get_brand_name (self_response e2) (BRAND_ID (cfg e2)) = Ok brand_name ->
  load_already_processed_rows (output_csv w') = Ok processed' ->
  main str_other e2 (output_csv w')
  = ({| output_csv := output_csv w'; events := skip_events 1 ids |}, Ok tt).
Proof.
  intros Hmain Hc Hscript Hread Hin Htok Hbrand Hload'.
  destruct (main_started str_other e out)
    as [[x Hx] | (b & ids0 & processed & Hread0 & Hload & _)];
    [congruence|].
  destruct (main_trace str_other e out w' (Ok tt) ids processed
              Hmain Hread Hload) as (_ & Hall & _).
  destruct (main_events _ _ _ _ _ Hmain) as (_ & _ & _ & _ & _ & Hout).
  specialize (Hall eq_refl). specialize (Hout Hc).
  pose proof Hload' as Hload2. rewrite Hout in Hload2.
  destruct (resume_after_rows out _ processed processed'
              Hscript Hload Hload2) as (_ & Hold & Hnew).
  pose proof (read_ids_nonempty _ _ Hread) as Hne.
  rewrite Forall_forall in Hne.
  unfold main. rewrite Htok, Hbrand, Hin, Hread, Hload'.
  rewrite main_loop_all_processed; [done|].
  intros id Hid. destruct (decide (Some id ∈ processed)) as [Hp | Hp].
  - by apply Hold.
  - apply Hnew; [by apply Hne|]. rewrite Hall.
    by apply list_elem_of_filter.
Qed.


Lemma lstrip_fixed s : starts_with_space s = false -> lstrip s = s.
Proof. destruct s as [|c s]; simpl; [done|]. by intros ->. Qed.

Lemma rstrip_fixed s : ends_with_space s = false -> rstrip s = s.
Proof.
  induction s as [|c s IH]; simpl; [done|].
  destruct s as [|c' s'].
  - simpl. by intros ->.
  - intros H. by rewrite IH.
Qed.

Lemma strip_fixed s :
  starts_with_space s = false -> ends_with_space s = false -> strip s = s.
Proof.
  intros Hst Hend. unfold strip. rewrite (lstrip_fixed _ Hst).
  by apply rstrip_fixed.
Qed.

(** X19. The identifiers the input reader returns are in normal form:
    none is empty and stripping one again changes nothing, for any input
    file the reader accepts. *)
Theorem read_ids_normalised f ids :
  read_product_source_ids f = Ok ids ->
  Forall (fun id => id <> "" /\ strip id = id) ids.
Proof.
  destruct f as [file|]; simpl; [|done].
  case_bool_decide; [|done]. rewrite read_loop_spec. intros [= <-].
  apply Forall_forall. intros v [Hne Hin]%list_elem_of_filter.
  split; [done|]. apply list_elem_of_fmap in Hin as (row & -> & _).
  destruct (strip_spec (get_or_empty "product_source_id" row))
    as (pre & post & _ & _ & _ & Hst & Hend).
  by apply strip_fixed.
Qed.

Lemma extract_loop_app a b target d u urls :
  extract_loop (a ++ b) target d u urls
  = (let! '(d1, u1, urls1) := extract_loop a target d u urls in
     extract_loop b target d1 u1 urls1).
Proof.
  revert d u urls. induction a as [|media a IH]; intros d u urls; [done|].
  cbn [app extract_loop].
  destruct (collect_image media urls) as [urls1|]; simpl; [|done].
  destruct (negb (Py.is_none d) && negb (Py.is_none u)); [by rewrite IH|].
  destruct (search_products media target d u) as [[d1 u1]|]; simpl; [|done].
  by rewrite IH.
Qed.

Lemma collect_image_wf_image media urls :
  wf_image media = true ->
  collect_image media urls = Ok (urls ++ image_urls [media])%list.
Proof.
  intros Hwf.
  assert (exists urls', collect_image media urls = Ok urls') as [urls' H].
  { unfold wf_image in Hwf. unfold collect_image.
    apply andb_true_iff in Hwf as [Hd Hi].
    rewrite (get_dict _ _ Hd). simpl.
    assert (exists o, Py.get "original"
                        (Py.or_ (field "image_sizes" media) empty_dict) = Ok o
                      /\ absent_or is_dict o = true) as (o & -> & Ho).
    { apply absent_or_cases in Hi as [[_ ->] | (_ & Hi & ->)].
      - by exists PNone.
      - apply andb_true_iff in Hi as [Hi Ho].
        rewrite (get_dict _ _ Hi). eauto. }
    simpl. rewrite (get_dict "url" (Py.or_ o empty_dict))
      by (by apply or_dict_is_dict). simpl.
    destruct (Py.truthy _); eauto. }
  rewrite H. by apply collect_image_spec in H as ->.
Qed.

Lemma extract_loop_after_match more target d u urls :
  Py.is_none d = false -> Py.is_none u = false ->
  Forall (fun m => wf_image m = true) more ->
  extract_loop more target d u urls
  = Ok (d, u, (urls ++ image_urls more)%list).
Proof.
  intros Hd Hu Hwf. revert urls.
  induction Hwf as [|media more Hm _ IH]; intros urls; cbn [extract_loop].
  - by rewrite app_nil_r.
  - rewrite (collect_image_wf_image _ _ Hm). simpl. rewrite Hd, Hu. simpl.
    by rewrite IH, (image_urls_cons media more), app_assoc.
Qed.

(** X20. Once the extractor has both the id and the URL, further records
    only add to the count and to the image URLs: appending records whose
    image part is well shaped leaves id and URL as they are, whatever the
    product associations of those records hold. *)
Theorem records_after_match_only_add_images media_items more target d u c urls :
  extract_product_info media_items target = Ok (d, u, c, urls) ->
  d <> PNone -> u <> PNone ->
  Forall (fun m => wf_image m = true) more ->
  extract_product_info (media_items ++ more) target
  = Ok (d, u, c + length more, (urls ++ image_urls more)%list).
Proof.
  unfold extract_product_info. intros H Hd Hu Hwf. bind_ok H.
  destruct a as [[d0 u0] urls0]. injection H as <- <- <- <-.
  rewrite extract_loop_app, E. simpl.
  rewrite extract_loop_after_match; [|by destruct d0 | by destruct u0 | done].
  simpl. by rewrite length_app.
Qed.

(** * Further concrete runs *)

Lemma extract_fields_first_offered_witness :
  extract_product_info Fixture.split_records "sku-1"
  = Ok (PInt 1, PStr "https://x/p/2", 2,
        [PStr "https://img/1"; PStr "https://img/2"])
  /\ PInt 1
     = first_set
         (map (fun m => from_option assoc_id PNone (first_match "sku-1" m))
              Fixture.split_records)
  /\ PStr "https://x/p/2"
     = first_set
         (map (fun m => from_option assoc_url PNone (first_match "sku-1" m))
              Fixture.split_records).
Proof.
  split; [reflexivity|].
  destruct (extract_fields_first_offered Fixture.split_records "sku-1"
              (PInt 1) (PStr "https://x/p/2") 2
              [PStr "https://img/1"; PStr "https://img/2"] eq_refl)
    as (Hd & Hu & _).
  by split.
Defined.

Lemma extract_image_urls_witness :
  extract_product_info Sample.three_records "sku-42"
  = Ok (PInt 42, PStr "https://x/p/42", 3,
        [PStr "https://img/1"; PStr "https://img/2"; PStr "https://img/3"])
  /\ [PStr "https://img/1"; PStr "https://img/2"; PStr "https://img/3"]
     = image_urls Sample.three_records.
Proof.
  split; [reflexivity|].
  exact (proj1 (extract_image_urls Sample.three_records "sku-42"
                  (PInt 42) (PStr "https://x/p/42") 3 _ eq_refl)).
Defined.

Lemma scan_stops_at_first_match_witness :
  tag_product (Sample.tag "sku-42" Sample.product42)
  = Ok (PDict Sample.product42)
  /\ tag_matches (Sample.tag "sku-42" Sample.product42)
       (PDict Sample.product42) "sku-42" = Ok true
  /\ scan_products
       ([Sample.tag "other" []]
        ++ Sample.tag "sku-42" Sample.product42 :: [PInt 5]) "sku-42"
       PNone PNone
     = scan_products
         ([Sample.tag "other" []]
          ++ Sample.tag "sku-42" Sample.product42 :: []) "sku-42"
         PNone PNone.
Proof.
  split; [reflexivity | split; [reflexivity|]].
  exact (scan_stops_at_first_match [Sample.tag "other" []]
           (Sample.tag "sku-42" Sample.product42) (PDict Sample.product42)
           [PInt 5] [] "sku-42" PNone PNone eq_refl eq_refl).
Defined.

Lemma extract_fails_on_shape_only_witness :
  extract_product_info [PInt 5] "sku-42" = Raise AttributeError
  /\ shape_error AttributeError
  /\ ~ Forall (fun m => wf_media m = true) [PInt 5].
Proof.
  split; [reflexivity|].
  exact (extract_fails_on_shape_only [PInt 5] "sku-42" AttributeError eq_refl).
Defined.

Lemma get_brand_name_first_brand_witness :
  get_brand_name Sample.self_ok 2005 = Ok "acme"
  /\ exists data brands pre obj post,
       Sample.self_ok = Response 200 (Some data)
       /\ Py.or_ (field "brands" data) empty_dict = PDict brands
       /\ brands = (pre ++ ("acme", obj) :: post)%list
       /\ eq_int (field "id" obj) 2005 = true
       /\ Forall (fun kv => eq_int (field "id" kv.2) 2005 = false) pre.
Proof.
  split; [reflexivity|].
  exact (get_brand_name_first_brand Sample.self_ok 2005 "acme" eq_refl).
Defined.

Lemma get_brand_name_failures_witness :
  503%Z <> 200%Z
  /\ get_brand_name (Response 503 (Some Fixture.other_brands)) 2005
     = Raise (SystemExit 1)
  /\ get_brand_name (Response 200 (Some Fixture.other_brands)) 2005
     = Raise (SystemExit 1)
  /\ get_brand_name
       (Response 200 (Some (PDict [("brands", PDict [("other", PInt 7)])])))
       2005
     = Raise AttributeError.
Proof.
  assert (Hne : 503%Z <> 200%Z) by lia.
  split; [exact Hne|]. split; [|split].
  - exact (proj1 (proj2 (get_brand_name_failures 2005))
             503%Z (Some Fixture.other_brands) Hne).
  - apply (proj1 (proj2 (proj2 (proj2 (proj2 (get_brand_name_failures 2005)))))
             Fixture.other_brands).
    split; [reflexivity|].
    exists [("other", PDict [("id", PInt 7)])]. split; [reflexivity|].
    repeat constructor.
  - apply (proj1 (proj2 (proj2 (proj2 (get_brand_name_failures 2005))))
             (PDict [("brands", PDict [("other", PInt 7)])])).
    right. right. exists [], "other", (PInt 7), [].
    split; [reflexivity | split; [constructor | reflexivity]].
Defined.

Lemma resume_set_is_column_witness :
  exists processed,
    load_already_processed_rows
      (Some [["dash_id"; "product_id"]; ["1"; "sku-1"]; []; ["2"]])
    = Ok processed
    /\ Some "sku-1" ∈ processed
    /\ None ∈ processed.
Proof.
  destruct (load_already_processed_rows_total
              (Some [["dash_id"; "product_id"]; ["1"; "sku-1"]; []; ["2"]]))
    as [processed Hload].
  exists processed. split; [exact Hload|].
  assert (Hnd : NoDup ["dash_id"; "product_id"]) by compute_done.
  pose proof (resume_set_is_column ["dash_id"; "product_id"]
                [["1"; "sku-1"]; []; ["2"]] 1 processed Hnd eq_refl Hload)
    as Hcol.
  split; apply Hcol.
  - exists ["1"; "sku-1"]. split; [left | done].
  - exists ["2"]. split; [right; right; left | done].
Defined.



Lemma lookups_only_for_unprocessed_witness :
  let e := Sample.offline Fixture.two_ids in
  let out := Some [fieldnames; Sample.written "sku-1"] in
  main Sample.no_str e out
  = ({| output_csv :=
          Some [fieldnames; Sample.written "sku-1"; Sample.written "sku-2"];
        events := [Skipping 1 "sku-1"; Fetching 2 "sku-2";
                   Appending (Sample.written "sku-2"); Sleep] |}, Ok tt)
  /\ read_product_source_ids (input_csv e) = Ok ["sku-1"; "sku-2"]
  /\ ["sku-1"; "sku-2"] !! (2 - 1) = Some "sku-2".
Proof.
  intros e out.
  assert (Hmain : main Sample.no_str e out
    = ({| output_csv :=
            Some [fieldnames; Sample.written "sku-1"; Sample.written "sku-2"];
          events := [Skipping 1 "sku-1"; Fetching 2 "sku-2";
                     Appending (Sample.written "sku-2"); Sleep] |}, Ok tt))
    by (vm_compute; reflexivity).
  assert (Hread : read_product_source_ids (input_csv e) = Ok ["sku-1"; "sku-2"])
    by (vm_compute; reflexivity).
  split; [exact Hmain | split; [exact Hread|]].
  destruct (load_already_processed_rows_total out) as [processed Hload].
  assert (Hin : Fetching 2 "sku-2"
                ∈ [Skipping 1 "sku-1"; Fetching 2 "sku-2";
                   Appending (Sample.written "sku-2"); Sleep])
    by (right; left).
  exact (proj2 (proj2 (proj1 (lookups_only_for_unprocessed Sample.no_str e out
                                _ _ _ processed Hmain Hread Hload 2 "sku-2")
                         Hin))).
Defined.

Lemma failed_lookups_give_empty_rows_witness :
  let e := Sample.offline Fixture.two_ids in
  exists w',
    main Sample.no_str e None = (w', Ok tt)
    /\ appended (events w') = [empty_row "sku-1"; empty_row "sku-2"]
    /\ output_csv w'
       = Some [fieldnames; empty_row "sku-1"; empty_row "sku-2"].
Proof.
  intros e.
  assert (Hread : read_product_source_ids (input_csv e) = Ok ["sku-1"; "sku-2"])
    by (vm_compute; reflexivity).
  destruct (failed_lookups_give_empty_rows Sample.no_str e None "acme"
              ["sku-1"; "sku-2"] ∅ eq_refl eq_refl Hread eq_refl
              (fun _ _ => eq_refl)) as (w' & Hmain & Hrows & Hout).
  exists w'. split; [exact Hmain|]. split.
  - rewrite Hrows. reflexivity.
  - rewrite (Hout (or_introl eq_refl)). reflexivity.
Defined.

Lemma row_evaluation_witness :
  Forall (fun m => wf_media m = true) Sample.three_records
  /\ Forall (fun v => is_str v = true) (image_urls Sample.three_records)
  /\ exists row,
       make_row Sample.no_str "acme" Sample.three_records "sku-42" = Ok row
       /\ writerow Sample.no_str row
          = ["sku-42"; "42";
             "https://app.dashhudson.com/acme/library/products?d=product%7CproductId%3A42";
             "https://x/p/42"; "3";
             "https://img/1; https://img/2; https://img/3"].
Proof.
  assert (Hwf : Forall (fun m => wf_media m = true) Sample.three_records)
    by (repeat constructor).
  assert (Hstr : Forall (fun v => is_str v = true)
                   (image_urls Sample.three_records))
    by (repeat constructor).
  split; [exact Hwf | split; [exact Hstr|]].
  destruct (proj1 (row_evaluation Sample.no_str "acme" Sample.three_records
                     "sku-42") Hwf Hstr) as [row Hrow].
  exists row. split; [exact Hrow|].
  assert (Heq : Ok row
                = make_row Sample.no_str "acme" Sample.three_records "sku-42")
    by (symmetry; exact Hrow).
  vm_compute in Heq. injection Heq as ->. vm_compute. reflexivity.
Defined.

Lemma resume_set_grows_witness :
  let e := Sample.offline Fixture.two_ids in
  let out := Some [fieldnames; Sample.written "sku-1"] in
  exists processed',
    load_already_processed_rows (output_csv (main Sample.no_str e out).1)
    = Ok processed'
    /\ Some "sku-2" ∈ processed'.
Proof.
  intros e out.
  assert (Hmain : main Sample.no_str e out
    = ({| output_csv :=
            Some [fieldnames; Sample.written "sku-1"; Sample.written "sku-2"];
          events := [Skipping 1 "sku-1"; Fetching 2 "sku-2";
                     Appending (Sample.written "sku-2"); Sleep] |}, Ok tt))
    by (vm_compute; reflexivity).
  assert (Hread : read_product_source_ids (input_csv e) = Ok ["sku-1"; "sku-2"])
    by (vm_compute; reflexivity).
  assert (Hc : ends_complete e out) by (by right).
  assert (Hscript : script_file out) by (right; by eexists).
  destruct (load_already_processed_rows_total out) as [processed Hload].
  rewrite Hmain. simpl.
  destruct (load_already_processed_rows_total
              (Some [fieldnames; Sample.written "sku-1"; Sample.written "sku-2"]))
    as [processed' Hload'].
  exists processed'. split; [exact Hload'|].
  refine (proj2 (proj2 (resume_set_grows Sample.no_str e out _ _
                          ["sku-1"; "sku-2"] processed processed'
                          Hmain Hc Hscript Hread Hload Hload'))
            "sku-2" _ _).
  - right. left.
  - vm_compute. lia.
Defined.

Lemma second_run_changes_nothing_witness :
  let e := Sample.offline Fixture.two_ids in
  let written :=
    Some [fieldnames; Sample.written "sku-1"; Sample.written "sku-2"] in
  main Sample.no_str e None
  = ({| output_csv := written;
        events := [Fetching 1 "sku-1"; Appending (Sample.written "sku-1");
                   Sleep;
                   Fetching 2 "sku-2"; Appending (Sample.written "sku-2");
                   Sleep] |},
     Ok tt)
  /\ main Sample.no_str (Fixture.online Fixture.two_ids) written
     = ({| output_csv := written;
           events := [Skipping 1 "sku-1"; Skipping 2 "sku-2"] |}, Ok tt).
Proof.
  intros e written.
  assert (Hmain : main Sample.no_str e None
    = ({| output_csv := written;
          events := [Fetching 1 "sku-1"; Appending (Sample.written "sku-1");
                     Sleep;
                     Fetching 2 "sku-2"; Appending (Sample.written "sku-2");
                     Sleep] |},
       Ok tt)) by (vm_compute; reflexivity).
  assert (Hread : read_product_source_ids (input_csv e) = Ok ["sku-1"; "sku-2"])
    by (vm_compute; reflexivity).
  split; [exact Hmain|].
  destruct (load_already_processed_rows_total written) as [processed' Hload'].
  exact (second_run_changes_nothing Sample.no_str e None _
           ["sku-1"; "sku-2"] (Fixture.online Fixture.two_ids) "acme"
           processed'
           Hmain (or_introl eq_refl) (or_introl eq_refl) Hread eq_refl
           eq_refl eq_refl Hload').
Defined.


Lemma read_ids_normalised_witness :
  read_product_source_ids
    (Some [["product_source_id"]; ["  sku-1 "]; [" "]; ["sku-2"]])
  = Ok ["sku-1"; "sku-2"]
  /\ Forall (fun id => id <> "" /\ strip id = id) ["sku-1"; "sku-2"].
Proof.
  assert (H : read_product_source_ids
                (Some [["product_source_id"]; ["  sku-1 "]; [" "]; ["sku-2"]])
              = Ok ["sku-1"; "sku-2"]) by (vm_compute; reflexivity).
  split; [exact H|].
  exact (read_ids_normalised _ _ H).
Defined.

Lemma records_after_match_only_add_images_witness :
  extract_product_info Sample.three_records "sku-42"
  = Ok (PInt 42, PStr "https://x/p/42", 3,
        [PStr "https://img/1"; PStr "https://img/2"; PStr "https://img/3"])
  /\ Forall (fun m => wf_image m = true) [Fixture.odd_products]
  /\ extract_product_info (Sample.three_records ++ [Fixture.odd_products])
       "sku-42"
     = Ok (PInt 42, PStr "https://x/p/42", 4,
           [PStr "https://img/1"; PStr "https://img/2"; PStr "https://img/3";
            PStr "https://img/9"]).
Proof.
  assert (Hwf : Forall (fun m => wf_image m = true) [Fixture.odd_products])
    by (repeat constructor).
  split; [reflexivity | split; [exact Hwf|]].
  exact (records_after_match_only_add_images Sample.three_records
           [Fixture.odd_products] "sku-42" (PInt 42) (PStr "https://x/p/42") 3
           [PStr "https://img/1"; PStr "https://img/2"; PStr "https://img/3"]
           eq_refl ltac:(discriminate) ltac:(discriminate) Hwf).
Defined.
